(** * casbin-pgx-adapter: the rule codec, the content identifier and the
      persistence engine of [adapter.go], embedded in Rocq.

    Go strings are byte sequences and are modelled by [string]; Go [int]
    values that can be negative ([fieldIndex], the result of
    [getLastNonEmptyIndex]) are modelled by [Z], without overflow; slices
    are lists.

    The table lives in PostgreSQL.  It is modelled by the list of its rows,
    and the statements the adapter sends are modelled by a small statement
    type with an executable semantics ([Sql.exec_stmt]).  The hash
    [meow.Checksum] is an external package: it is a variable of the
    sections below. *)

From Stdlib Require Import List String Ascii ZArith Lia Bool.
From Stdlib Require Import Strings.Byte.
From Stdlib Require Import Permutation.
Import ListNotations.
Open Scope string_scope.

(** ** Go library functions used by the adapter *)

Module Go.

(** [strings.Join(elems, sep)]. *)
Fixpoint Join (elems : list string) (sep : string) : string :=
  match elems with
  | [] => ""
  | x :: rest =>
      match rest with
      | [] => x
      | _ :: _ => x ++ sep ++ Join rest sep
      end
  end.

(** One lower-case hexadecimal digit. *)
Definition hexDigit (n : N) : ascii :=
  if N.ltb n 10 then ascii_of_N (48 + n) else ascii_of_N (87 + n).

(** [fmt.Sprintf("%x", sum)] on a byte array: two lower-case digits per
    byte, most significant first, no separator. *)
Fixpoint SprintfHex (sum : list byte) : string :=
  match sum with
  | [] => ""
  | b :: rest =>
      String (hexDigit (N.div (Byte.to_N b) 16))
        (String (hexDigit (N.modulo (Byte.to_N b) 16)) (SprintfHex rest))
  end.

(** [[]byte(s)]. *)
Definition bytes (s : string) : list byte := list_byte_of_string s.

End Go.

(** ** The row type and the rule codec *)

(** [CasbinRule]: one row of the table. *)
Record CasbinRule : Type := mkCasbinRule {
  ID : string;
  Ptype : string;
  V0 : string;
  V1 : string;
  V2 : string;
  V3 : string;
  V4 : string;
  V5 : string
}.

(** The zero value [&CasbinRule{}]. *)
Definition emptyRule : CasbinRule := mkCasbinRule "" "" "" "" "" "" "" "".

Definition set_ID (r : CasbinRule) (x : string) : CasbinRule :=
  mkCasbinRule x (Ptype r) (V0 r) (V1 r) (V2 r) (V3 r) (V4 r) (V5 r).
Definition set_Ptype (r : CasbinRule) (x : string) : CasbinRule :=
  mkCasbinRule (ID r) x (V0 r) (V1 r) (V2 r) (V3 r) (V4 r) (V5 r).
Definition set_V0 (r : CasbinRule) (x : string) : CasbinRule :=
  mkCasbinRule (ID r) (Ptype r) x (V1 r) (V2 r) (V3 r) (V4 r) (V5 r).
Definition set_V1 (r : CasbinRule) (x : string) : CasbinRule :=
  mkCasbinRule (ID r) (Ptype r) (V0 r) x (V2 r) (V3 r) (V4 r) (V5 r).
Definition set_V2 (r : CasbinRule) (x : string) : CasbinRule :=
  mkCasbinRule (ID r) (Ptype r) (V0 r) (V1 r) x (V3 r) (V4 r) (V5 r).
Definition set_V3 (r : CasbinRule) (x : string) : CasbinRule :=
  mkCasbinRule (ID r) (Ptype r) (V0 r) (V1 r) (V2 r) x (V4 r) (V5 r).
Definition set_V4 (r : CasbinRule) (x : string) : CasbinRule :=
  mkCasbinRule (ID r) (Ptype r) (V0 r) (V1 r) (V2 r) (V3 r) x (V5 r).
Definition set_V5 (r : CasbinRule) (x : string) : CasbinRule :=
  mkCasbinRule (ID r) (Ptype r) (V0 r) (V1 r) (V2 r) (V3 r) (V4 r) x.

(** [getValues]: the V0-V5 values as a slice. *)
Definition getValues (r : CasbinRule) : list string :=
  [V0 r; V1 r; V2 r; V3 r; V4 r; V5 r].

(** The loop of [getLastNonEmptyIndex], entered with [i = n - 1]. *)
Fixpoint lastNonEmptyBelow (values : list string) (n : nat) : Z :=
  match n with
  | O => -1
  | S i =>
      if String.eqb (nth i values "") "" then lastNonEmptyBelow values i
      else Z.of_nat i
  end.

(** [getLastNonEmptyIndex]: index of the last non-empty value, -1 if all
    values are empty. *)
Definition getLastNonEmptyIndex (values : list string) : Z :=
  lastNonEmptyBelow values (List.length values).

(** The indices visited by [for i := 0; i <= lastIndex; i++]. *)
Definition upTo (lastIndex : Z) : list nat :=
  seq 0 (Z.to_nat (lastIndex + 1)).

Definition prefixLine : string := ", ".

(** The method [String] of [CasbinRule] ([String] is taken in Rocq): the
    string builder is the accumulator of the loop; [sb.Grow] only reserves
    capacity. *)
Definition String_ (r : CasbinRule) : string :=
  let sb := Ptype r in
  let values := getValues r in
  let lastIndex := getLastNonEmptyIndex values in
  fold_left (fun sb i => (sb ++ prefixLine) ++ nth i values "")
            (upTo lastIndex) sb.

(** The method [toStringPolicy] of [CasbinRule]. *)
Definition toStringPolicy (c : CasbinRule) : list string :=
  let policy := if String.eqb (Ptype c) "" then [] else [Ptype c] in
  let values := getValues c in
  let lastIndex := getLastNonEmptyIndex values in
  fold_left (fun policy i => (policy ++ [nth i values ""])%list)
            (upTo lastIndex) policy.

(** ** The content identifier and the encoder *)

Section Identifier.

(** [meow.Checksum(seed, data)], from the external package
    [github.com/mmcloughlin/meow]. *)
Variable Checksum : Z -> list byte -> list byte.

(** The local [data] of [policyID]: what is hashed. *)
Definition policyData (ptype : string) (rule : list string) : string :=
  Go.Join (ptype :: rule) ",".

(** [policyID]. *)
Definition policyID (ptype : string) (rule : list string) : string :=
  let data := policyData ptype rule in
  let sum := Checksum 0 (Go.bytes data) in
  Go.SprintfHex sum.

(** [savePolicyLine]. *)
Definition savePolicyLine (ptype : string) (rule : list string) : CasbinRule :=
  let line := set_Ptype emptyRule ptype in
  let l := List.length rule in
  let line := if Nat.ltb 0 l then set_V0 line (nth 0 rule "") else line in
  let line := if Nat.ltb 1 l then set_V1 line (nth 1 rule "") else line in
  let line := if Nat.ltb 2 l then set_V2 line (nth 2 rule "") else line in
  let line := if Nat.ltb 3 l then set_V3 line (nth 3 rule "") else line in
  let line := if Nat.ltb 4 l then set_V4 line (nth 4 rule "") else line in
  let line := if Nat.ltb 5 l then set_V5 line (nth 5 rule "") else line in
  set_ID line (policyID ptype rule).

End Identifier.

(** ** The table and the statements sent to it *)

Module Sql.

(** The rows of the table [casbin_rule], in the order one SELECT happens to
    return them; the store guarantees no order. *)
Definition Table := list CasbinRule.

(** A column named in a WHERE clause: [ptype], or the text ["v%d"] built
    from an integer. *)
Inductive Column : Type :=
| ColPtype
| ColV (k : Z).

(** The value of a column in a row; [None] when the table has no such
    column (["v6"], ["v-1"]). *)
Definition column (c : Column) (r : CasbinRule) : option string :=
  match c with
  | ColPtype => Some (Ptype r)
  | ColV k =>
      if Z.eqb k 0 then Some (V0 r)
      else if Z.eqb k 1 then Some (V1 r)
      else if Z.eqb k 2 then Some (V2 r)
      else if Z.eqb k 3 then Some (V3 r)
      else if Z.eqb k 4 then Some (V4 r)
      else if Z.eqb k 5 then Some (V5 r)
      else None
  end.

(** A conjunction [c1 = $1 AND c2 = $2 ...] with its bound arguments. *)
Definition Where := list (Column * string).

Definition column_exists (c : Column) : bool :=
  match column c emptyRule with Some _ => true | None => false end.

Definition holds (cond : Column * string) (r : CasbinRule) : bool :=
  match column (fst cond) r with
  | Some x => String.eqb x (snd cond)
  | None => false
  end.

Definition matches (w : Where) (r : CasbinRule) : bool :=
  forallb (fun cond => holds cond r) w.

Inductive Stmt : Type :=
| DeleteAll                       (* DELETE FROM t WHERE id IS NOT NULL *)
| DeleteById (id : string)        (* DELETE FROM t WHERE id = $1 *)
| DeleteWhere (w : Where)         (* DELETE FROM t WHERE c1 = $1 AND ... *)
| InsertIgnore (line : CasbinRule)
    (* INSERT INTO t (id, ptype, v0..v5) VALUES (...) ON CONFLICT DO NOTHING *)
| UpdateById (newLine : CasbinRule) (id : string).
    (* UPDATE t SET ptype = $1, v0 = $2, ..., v5 = $7 WHERE id = $8 *)

Definition has_id (id : string) (t : Table) : bool :=
  existsb (fun r => String.eqb (ID r) id) t.

(** The row left by the UPDATE: every column but [id] is rewritten. *)
Definition rewrite_columns (newLine r : CasbinRule) : CasbinRule :=
  mkCasbinRule (ID r) (Ptype newLine) (V0 newLine) (V1 newLine) (V2 newLine)
               (V3 newLine) (V4 newLine) (V5 newLine).

(** The effect of one statement; [None] is a statement the server
    rejects.  [id] is the primary key, so it is never null and a second
    row with a present [id] is a conflict. *)
Definition exec_stmt (s : Stmt) (t : Table) : option Table :=
  match s with
  | DeleteAll => Some []
  | DeleteById id => Some (filter (fun r => negb (String.eqb (ID r) id)) t)
  | DeleteWhere w =>
      if forallb (fun cond => column_exists (fst cond)) w
      then Some (filter (fun r => negb (matches w r)) t)
      else None
  | InsertIgnore line =>
      if has_id (ID line) t then Some t else Some (t ++ [line])%list
  | UpdateById newLine id =>
      Some (map (fun r => if String.eqb (ID r) id
                          then rewrite_columns newLine r else r) t)
  end.

End Sql.
Import Sql.

(** ** The connection pool, transactions and errors *)

Inductive error : Type :=
| ErrStorage                        (* a failure of the storage collaborator *)
| ErrStatement                      (* a statement the server rejects *)
| ErrTxClosed                       (* the transaction is no longer open *)
| Errorf (msg : string) (e : error). (* [fmt.Errorf("msg: %v", err)] *)

Inductive result (A : Type) : Type :=
| Ok (a : A)
| Err (e : error)
| Panic.                            (* index out of range *)
Arguments Ok {A} a.
Arguments Err {A} e.
Arguments Panic {A}.

(** What is behind [a.db]: the committed rows, the working copy of the
    open transaction if any, and a schedule of simulated failures: each
    call to the store (begin, exec, commit) takes the next entry, [true]
    makes the call fail. *)
Record World : Type := mkWorld {
  committed : Table;
  pending : option Table;
  faults : list bool
}.

Definition M (A : Type) : Type := World -> result A * World.

Definition ret {A} (a : A) : M A := fun w => (Ok a, w).

Definition bind {A B} (m : M A) (k : A -> M B) : M B :=
  fun w =>
    match m w with
    | (Ok a, w') => k a w'
    | (Err e, w') => (Err e, w')
    | (Panic, w') => (Panic, w')
    end.

Declare Scope go_scope.
Delimit Scope go_scope with go.
Notation "x <- m ;; k" := (bind m (fun x => k))
  (at level 61, m at next level, right associativity) : go_scope.
Notation "m ;;; k" := (bind m (fun _ => k))
  (at level 61, right associativity) : go_scope.
Open Scope go_scope.

(** [if err != nil { return fmt.Errorf("msg: %v", err) }]. *)
Definition wrapErr {A} (msg : string) (m : M A) : M A :=
  fun w =>
    match m w with
    | (Err e, w') => (Err (Errorf msg e), w')
    | other => other
    end.

Definition panic {A} : M A := fun w => (Panic, w).

Definition next_fault (w : World) : bool * World :=
  match faults w with
  | [] => (false, w)
  | b :: fs => (b, mkWorld (committed w) (pending w) fs)
  end.

(** [a.db.Begin]. *)
Definition db_Begin : M unit :=
  fun w =>
    let (b, w) := next_fault w in
    if b then (Err ErrStorage, w)
    else (Ok tt, mkWorld (committed w) (Some (committed w)) (faults w)).

(** [a.db.Exec]: one statement, committed on its own. *)
Definition db_Exec (s : Stmt) : M unit :=
  fun w =>
    let (b, w) := next_fault w in
    if b then (Err ErrStorage, w)
    else match exec_stmt s (committed w) with
         | Some t => (Ok tt, mkWorld t (pending w) (faults w))
         | None => (Err ErrStatement, w)
         end.

(** [tx.Exec]: one statement on the working copy of the transaction. *)
Definition tx_Exec (s : Stmt) : M unit :=
  fun w =>
    let (b, w) := next_fault w in
    if b then (Err ErrStorage, w)
    else match pending w with
         | None => (Err ErrTxClosed, w)
         | Some t =>
             match exec_stmt s t with
             | Some t' => (Ok tt, mkWorld (committed w) (Some t') (faults w))
             | None => (Err ErrStatement, w)
             end
         end.

(** [tx.Commit]: the working copy becomes the table; a failed commit
    discards it. *)
Definition tx_Commit : M unit :=
  fun w =>
    let (b, w) := next_fault w in
    if b then (Err ErrStorage, mkWorld (committed w) None (faults w))
    else match pending w with
         | None => (Err ErrTxClosed, w)
         | Some t => (Ok tt, mkWorld t None (faults w))
         end.

(** [tx.Rollback]: discards the working copy; after a commit there is
    none and nothing happens.  Its error is ignored by every caller. *)
Definition tx_Rollback (w : World) : World :=
  mkWorld (committed w) None (faults w).

(** [defer tx.Rollback(ctx)] around the rest of the function body: runs
    on every way out, a panic included. *)
Definition deferRollback {A} (body : M A) : M A :=
  fun w => let (r, w') := body w in (r, tx_Rollback w').

(** [for _, x := range l { if err := f(x); err != nil { return err } }]. *)
Fixpoint forEach {A} (f : A -> M unit) (l : list A) : M unit :=
  match l with
  | [] => ret tt
  | x :: xs => f x ;;; forEach f xs
  end.

(** ** The policy model handed over by the policy engine *)

(** [ast.Policy]. *)
Definition Assertion := list (list string).
(** [model.AssertionMap], as the list of its entries in the order [range]
    visits them. *)
Definition AssertionMap := list (string * Assertion).
(** [model.Model]. *)
Definition Model := list (string * AssertionMap).

(** [model[sec]]: the zero value (no entry) when the key is absent. *)
Fixpoint model_get (m : Model) (sec : string) : AssertionMap :=
  match m with
  | [] => []
  | (k, am) :: rest => if String.eqb k sec then am else model_get rest sec
  end.

(** ** The persistence engine *)

Section Engine.

Variable Checksum : Z -> list byte -> list byte.

Local Abbreviation policyID := (policyID Checksum).
Local Abbreviation savePolicyLine := (savePolicyLine Checksum).

(** The two loops of [SavePolicy] that fill [lines] from one section. *)
Definition gatherLines (am : AssertionMap) : list CasbinRule :=
  flat_map (fun entry => map (savePolicyLine (fst entry)) (snd entry)) am.

(** [SavePolicy]. *)
Definition SavePolicy (model : Model) : M unit :=
  wrapErr "start DB transaction" db_Begin ;;;
  deferRollback (
    tx_Exec DeleteAll ;;;
    let lines := (gatherLines (model_get model "p")
                  ++ gatherLines (model_get model "g"))%list in
    forEach (fun line => tx_Exec (InsertIgnore line)) lines ;;;
    wrapErr "commit DB transaction" tx_Commit).

(** [AddPolicy]. *)
Definition AddPolicy (sec ptype : string) (rule : list string) : M unit :=
  let line := savePolicyLine ptype rule in
  db_Exec (InsertIgnore line).

(** [AddPolicies]. *)
Definition AddPolicies (sec ptype : string) (rules : list (list string))
  : M unit :=
  db_Begin ;;;
  deferRollback (
    forEach (fun rule =>
               let line := savePolicyLine ptype rule in
               tx_Exec (InsertIgnore line)) rules ;;;
    tx_Commit).

(** [RemovePolicy]. *)
Definition RemovePolicy (sec ptype : string) (rule : list string) : M unit :=
  let line := savePolicyLine ptype rule in
  db_Exec (DeleteById (ID line)).

(** [RemovePolicies]. *)
Definition RemovePolicies (sec ptype : string) (rules : list (list string))
  : M unit :=
  db_Begin ;;;
  deferRollback (
    forEach (fun rule =>
               let line := savePolicyLine ptype rule in
               tx_Exec (DeleteById (ID line))) rules ;;;
    tx_Commit).

(** The loop of [RemoveFilteredPolicy] over [fieldValues], entered at
    index [i] with the conditions built so far. *)
Fixpoint filterConds (fieldIndex : Z) (i : nat) (fieldValues : list string)
                     (acc : Where) : Where :=
  match fieldValues with
  | [] => acc
  | v :: rest =>
      let acc := if String.eqb v "" then acc
                 else (acc ++ [(ColV (fieldIndex + Z.of_nat i), v)])%list in
      filterConds fieldIndex (S i) rest acc
  end.

(** [RemoveFilteredPolicy]. *)
Definition RemoveFilteredPolicy (sec ptype : string) (fieldIndex : Z)
           (fieldValues : list string) : M unit :=
  let query := filterConds fieldIndex 0 fieldValues [(ColPtype, ptype)] in
  db_Exec (DeleteWhere query).

(** [buildQuery]: the conditions added to the SELECT of a filtered load. *)
Definition buildQuery (query : Where) (values : list string) : Where :=
  filterConds 0 0 values query.

(** The loop of [UpdatePolicies]: [i] is the index of the head of
    [oldRules]; [newRules[i]] panics when [newRules] is too short. *)
Fixpoint updateLoop (ptype : string) (i : nat)
         (oldRules newRules : list (list string)) : M unit :=
  match oldRules with
  | [] => ret tt
  | oldRule :: rest =>
      let oldLine := savePolicyLine ptype oldRule in
      match nth_error newRules i with
      | None => panic
      | Some newRule =>
          let newLine := savePolicyLine ptype newRule in
          tx_Exec (UpdateById newLine (ID oldLine)) ;;;
          updateLoop ptype (S i) rest newRules
      end
  end.

(** [UpdatePolicies]. *)
Definition UpdatePolicies (sec ptype : string)
           (oldRules newRules : list (list string)) : M unit :=
  db_Begin ;;;
  deferRollback (
    updateLoop ptype 0 oldRules newRules ;;;
    tx_Commit).

(** [UpdatePolicy]. *)
Definition UpdatePolicy (sec ptype : string) (oldRule newPolicy : list string)
  : M unit :=
  UpdatePolicies sec ptype [oldRule] [newPolicy].

(** The method [queryString] of [CasbinRule]. *)
Definition queryString (c : CasbinRule) : Where :=
  let queryArgs := [(ColPtype, Ptype c)] in
  let values := getValues c in
  let lastIndex := getLastNonEmptyIndex values in
  fold_left (fun q i => (q ++ [(ColV (Z.of_nat i), nth i values "")])%list)
            (upTo lastIndex) queryArgs.

(** [fieldValues[k-fieldIndex]] under the guard
    [fieldIndex <= k && k < fieldIndex+len(fieldValues)]. *)
Definition windowSet (k fieldIndex : Z) (fieldValues : list string)
           (set : CasbinRule -> string -> CasbinRule) (line : CasbinRule)
  : CasbinRule :=
  if andb (Z.leb fieldIndex k)
          (Z.ltb k (fieldIndex + Z.of_nat (List.length fieldValues)))
  then set line (nth (Z.to_nat (k - fieldIndex)) fieldValues "")
  else line.

(** The row [line] that [UpdateFilteredPolicies] builds from its window. *)
Definition filterLine (ptype : string) (fieldIndex : Z)
           (fieldValues : list string) : CasbinRule :=
  let line := set_Ptype emptyRule ptype in
  let line := windowSet 0 fieldIndex fieldValues set_V0 line in
  let line := windowSet 1 fieldIndex fieldValues set_V1 line in
  let line := windowSet 2 fieldIndex fieldValues set_V2 line in
  let line := windowSet 3 fieldIndex fieldValues set_V3 line in
  let line := windowSet 4 fieldIndex fieldValues set_V4 line in
  let line := windowSet 5 fieldIndex fieldValues set_V5 line in
  line.

(** [UpdateFilteredPolicies]. *)
Definition UpdateFilteredPolicies (sec ptype : string)
           (newPolicies : list (list string)) (fieldIndex : Z)
           (fieldValues : list string) : M (list (list string)) :=
  let line := filterLine ptype fieldIndex fieldValues in
  let newP := map (savePolicyLine ptype) newPolicies in
  let oldP : list CasbinRule := [] in
  db_Begin ;;;
  deferRollback (
    forEach (fun newLine =>
               tx_Exec (DeleteWhere (queryString line)) ;;;
               tx_Exec (InsertIgnore newLine)) newP ;;;
    tx_Commit ;;;
    let oldPolicies := map toStringPolicy oldP in
    ret oldPolicies).

End Engine.

(** ** Notions of the specification the theorems compare the code with *)

(** The values of a rule with its trailing empty values removed; interior
    empty values stay. *)
Fixpoint trimTrailingEmpty (values : list string) : list string :=
  match values with
  | [] => []
  | v :: rest =>
      match trimTrailingEmpty rest with
      | [] => if String.eqb v "" then [] else [v]
      | t :: ts => v :: t :: ts
      end
  end.

(** A separator followed by each value, in order. *)
Fixpoint separated (sep : string) (values : list string) : string :=
  match values with
  | [] => ""
  | v :: rest => sep ++ v ++ separated sep rest
  end.

(** The six value slots of a rule of arity at most six: the values, then
    empty strings. *)
Definition sixSlots (values : list string) : list string :=
  (values ++ repeat "" (6 - List.length values))%list.


(** The positional predicate of a filter: for every position [i] of
    [fieldValues] holding a non-empty value, column [v(fieldIndex+i)] of
    the row equals it; [i] counts from [start]. *)
Fixpoint windowMatches (fieldIndex : Z) (start : nat)
         (fieldValues : list string) (r : CasbinRule) : bool :=
  match fieldValues with
  | [] => true
  | v :: rest =>
      (if String.eqb v "" then true
       else match column (ColV (fieldIndex + Z.of_nat start)) r with
            | Some x => String.eqb x v
            | None => false
            end)
      && windowMatches fieldIndex (S start) rest r
  end.

(** A row is selected by a filter when its rule type is the given one and
    the positional predicate holds. *)
Definition filterMatches (ptype : string) (fieldIndex : Z)
           (fieldValues : list string) (r : CasbinRule) : bool :=
  String.eqb (Ptype r) ptype && windowMatches fieldIndex 0 fieldValues r.

(** Every constrained position of the window names a column of the table. *)
Definition windowInRange (fieldIndex : Z) (fieldValues : list string) : Prop :=
  forall i v, nth_error fieldValues i = Some v -> v <> "" ->
              (0 <= fieldIndex + Z.of_nat i <= 5)%Z.

(** The number of rows carrying an identifier. *)
Definition countID (id : string) (t : Table) : nat :=
  List.length (filter (fun r => String.eqb (ID r) id) t).

(** The primary-key constraint of the table. *)
Definition uniqueIDs (t : Table) : Prop := NoDup (map ID t).

(** A stand-in for the content hash, to run the engine on concrete
    inputs: it returns the bytes it is given, so that different contents
    get different identifiers. *)
Definition sampleChecksum (seed : Z) (data : list byte) : list byte := data.

(** A store in which no call fails and no transaction is open. *)
Definition quiet (t : Table) : World := mkWorld t None [].


(** The table after a content-deduplicating insert. *)
Definition insertIgnore (line : CasbinRule) (t : Table) : Table :=
  if has_id (ID line) t then t else (t ++ [line])%list.

(** The table after a delete by identifier. *)
Definition deleteID (id : string) (t : Table) : Table :=
  filter (fun r => negb (String.eqb (ID r) id)) t.

(** The table after a delete by predicate. *)
Definition deleteMatching (w : Where) (t : Table) : Table :=
  filter (fun r => negb (matches w r)) t.

(** The same call made [n] times in a row. *)
Fixpoint times (n : nat) (m : M unit) : M unit :=
  match n with
  | O => ret tt
  | S k => m ;;; times k m
  end.

(** The value a window of [fieldValues] starting at column [fieldIndex]
    gives to column [k]: the empty string outside the window. *)
Definition windowValue (fieldIndex : Z) (fieldValues : list string) (k : Z)
  : string :=
  if andb (Z.leb fieldIndex k)
          (Z.ltb k (fieldIndex + Z.of_nat (List.length fieldValues)))
  then nth (Z.to_nat (k - fieldIndex)) fieldValues ""
  else "".

(** The first [n] calls to the store all go through. *)
Definition noFault (n : nat) (w : World) : bool :=
  forallb negb (firstn n (faults w)).

(** The identifier of a row is the content identifier of its own rule
    type and values (the values up to the last non-empty one). *)
Definition rowIdentified (Checksum : Z -> list byte -> list byte)
           (r : CasbinRule) : Prop :=
  ID r = policyID Checksum (Ptype r) (trimTrailingEmpty (getValues r)).

(** ** Loading *)

(** The fields of [Adapter] besides the pool; the pool is the [World]. *)
Record Adapter : Type := mkAdapter {
  tableName : string;
  skipTableCreate : bool;
  filtered : bool
}.

Definition set_filtered (a : Adapter) (b : bool) : Adapter :=
  mkAdapter (tableName a) (skipTableCreate a) b.

(** [IsFiltered]. *)
Definition IsFiltered (a : Adapter) : bool := filtered a.

(** [Filter]: a nil slice is [None]. *)
Record Filter : Type := mkFilter {
  P : option (list string);
  G : option (list string)
}.

(** The [filter interface{}] argument of [LoadFilteredPolicy]: nil, a
    [*Filter] (possibly a nil pointer), or a value of another type. *)
Inductive FilterArg : Type :=
| FilterNil
| FilterPointer (f : option Filter)
| FilterOther.

(** The SELECT statements of the loads. *)
Inductive Query : Type :=
| SelectAll                  (* SELECT id, ptype, v0..v5 FROM t *)
| SelectWhere (w : Where).   (* ... WHERE c1 = .. AND c2 = .. *)

(** The rows a query returns, in storage order; [None] is a query the
    server rejects. *)
Definition exec_query (q : Query) (t : Table) : option (list CasbinRule) :=
  match q with
  | SelectAll => Some t
  | SelectWhere w =>
      if forallb (fun cond => column_exists (fst cond)) w
      then Some (filter (matches w) t)
      else None
  end.

(** [a.db.Query]. *)
Definition db_Query (q : Query) : M (list CasbinRule) :=
  fun w =>
    let (b, w) := next_fault w in
    if b then (Err ErrStorage, w)
    else match exec_query q (committed w) with
         | Some rows => (Ok rows, w)
         | None => (Err ErrStatement, w)
         end.

(** What a load returns: nil, an error of the store, the error of the
    line handler, the error for a filter of the wrong type, or a panic. *)
Inductive loadError : Type :=
| StoreError (e : error)
| HandlerError (msg : string)
| InvalidFilterType.

Inductive outcome : Type :=
| Loaded
| Failed (e : loadError)
| Panicked.

(** A line handler such as [persist.LoadPolicyLine]: it updates the model
    and returns nil ([None]) or an error. *)
Definition Handler : Type := string -> Model -> option string * Model.

(** What a load works on: the adapter, the model being filled, the store. *)
Record LoadState : Type := mkLoadState {
  adapter : Adapter;
  loading : Model;
  store : World
}.

(** [for rows.Next() { ...; if err := handler(line.String(), model); err != nil
    { return err } }]; [rows.Scan] of the eight text columns into strings is
    taken to succeed. *)
Fixpoint feedRows (handler : Handler) (rows : list CasbinRule) (model : Model)
  : option string * Model :=
  match rows with
  | [] => (None, model)
  | line :: rest =>
      match handler (String_ line) model with
      | (None, model') => feedRows handler rest model'
      | (Some err, model') => (Some err, model')
      end
  end.

(** One query of a load followed by the loop over its rows. *)
Definition loadRows (handler : Handler) (q : Query) (s : LoadState)
  : outcome * LoadState :=
  match db_Query q (store s) with
  | (Ok rows, w) =>
      match feedRows handler rows (loading s) with
      | (None, model) => (Loaded, mkLoadState (adapter s) model w)
      | (Some err, model) =>
          (Failed (HandlerError err), mkLoadState (adapter s) model w)
      end
  | (Err e, w) => (Failed (StoreError e), mkLoadState (adapter s) (loading s) w)
  | (Panic, w) => (Panicked, mkLoadState (adapter s) (loading s) w)
  end.

Section Loads.

(** [persist.LoadPolicyLine], from the external package casbin. *)
Variable LoadPolicyLine : Handler.

(** [LoadPolicy]. *)
Definition LoadPolicy (s : LoadState) : outcome * LoadState :=
  match loadRows LoadPolicyLine SelectAll s with
  | (Loaded, s') =>
      (Loaded, mkLoadState (set_filtered (adapter s') false) (loading s') (store s'))
  | other => other
  end.

(** [loadFilteredPolicy]. *)
Definition loadFilteredPolicy (filter : Filter) (handler : Handler)
           (s : LoadState) : outcome * LoadState :=
  let afterP :=
    match P filter with
    | Some values =>
        loadRows handler (SelectWhere (buildQuery [(ColPtype, "p")] values)) s
    | None => (Loaded, s)
    end in
  match afterP with
  | (Loaded, s1) =>
      match G filter with
      | Some values =>
          loadRows handler (SelectWhere (buildQuery [(ColPtype, "g")] values)) s1
      | None => (Loaded, s1)
      end
  | other => other
  end.

(** [LoadFilteredPolicy]. *)
Definition LoadFilteredPolicy (filter : FilterArg) (s : LoadState)
  : outcome * LoadState :=
  match filter with
  | FilterNil => LoadPolicy s
  | FilterOther => (Failed InvalidFilterType, s)
  | FilterPointer None => (Panicked, s)
  | FilterPointer (Some filterValue) =>
      match loadFilteredPolicy filterValue LoadPolicyLine s with
      | (Loaded, s') =>
          (Loaded,
           mkLoadState (set_filtered (adapter s') true) (loading s') (store s'))
      | other => other
      end
  end.

End Loads.

(** A handler to run the loads on concrete inputs: it records each line as
    a one-value rule of the section ["lines"], newest first. *)
Definition recordLine : Handler :=
  fun line model => (None, ("lines", [("", [[line]])]) :: model).

(** The lines a model filled by [recordLine] has received, oldest first. *)
Definition recordedLines (model : Model) : list string :=
  rev (flat_map (fun sec =>
                   flat_map (fun entry => flat_map (fun rule => rule) (snd entry))
                            (snd sec)) model).

(** The table after the UPDATE by identifier. *)
Definition updateID (newLine : CasbinRule) (id : string) (t : Table) : Table :=
  map (fun r => if String.eqb (ID r) id then rewrite_columns newLine r else r) t.

(** No comma in a string. *)
Fixpoint noComma (s : string) : bool :=
  match s with
  | EmptyString => true
  | String c rest => negb (Ascii.eqb c ",") && noComma rest
  end.

(** The result is a normal return without error. *)
Definition isOk {A} (r : result A) : bool :=
  match r with Ok _ => true | _ => false end.

(** A computation that never changes the committed rows. *)
Definition keepsCommitted {A} (m : M A) : Prop :=
  forall w, committed (snd (m w)) = committed w.

(** A computation that changes the committed rows only when it returns
    without error. *)
Definition failsSafe {A} (m : M A) : Prop :=
  forall w, isOk (fst (m w)) = false -> committed (snd (m w)) = committed w.

(** The table after the UPDATEs of [UpdatePolicies] for the paired rules. *)
Definition updateAll (Checksum : Z -> list byte -> list byte) (ptype : string)
           (pairs : list (list string * list string)) (t : Table) : Table :=
  fold_left (fun t pair =>
               updateID (savePolicyLine Checksum ptype (snd pair))
                        (policyID Checksum ptype (fst pair)) t)
            pairs t.

(** The rows a section of a filter selects: none for a nil slice,
    otherwise the rows of the rule type that the positional predicate
    selects from column v0 on. *)
Definition selectedRows (ptype : string) (values : option (list string))
           (t : Table) : list CasbinRule :=
  match values with
  | None => []
  | Some vs => filter (filterMatches ptype 0 vs) t
  end.

(** The constrained positions of a section of a filter are within v0..v5. *)
Definition sectionInRange (values : option (list string)) : Prop :=
  match values with
  | None => True
  | Some vs => windowInRange 0 vs
  end.

(** A handler that refuses one line and records the others. *)
Definition refuseLine (bad : string) : Handler :=
  fun line model =>
    if String.eqb line bad then (Some "refused", model)
    else recordLine line model.

(** A row is the encoding of a rule: its id is the lower-case hex of the
    hash of the comma-joined rule type and values, its ptype is the rule
    type, and its columns v0..v5 are the first six values followed by
    empty strings. *)
Definition encodesRule (Checksum : Z -> list byte -> list byte)
           (ptype : string) (rule : list string) (r : CasbinRule) : Prop :=
  ID r = Go.SprintfHex (Checksum 0%Z (Go.bytes (Go.Join (ptype :: rule) ",")))
  /\ Ptype r = ptype
  /\ [V0 r; V1 r; V2 r; V3 r; V4 r; V5 r] = sixSlots (firstn 6 rule).

(** The value a Go map holds under a key, the map being given by its
    entries: the entry with that key, or the zero value (no entry) when
    there is none. *)
Inductive sectionIs : Model -> string -> AssertionMap -> Prop :=
| section_none (sec : string) : sectionIs [] sec []
| section_here (sec : string) (am : AssertionMap) (rest : Model) :
    sectionIs ((sec, am) :: rest) sec am
| section_later (k sec : string) (other am : AssertionMap) (rest : Model) :
    k <> sec -> sectionIs rest sec am -> sectionIs ((k, other) :: rest) sec am.

(** The rules of a section with their rule types, in the order the loops
    of a save visit them. *)
Definition rulesOf (am : AssertionMap) : list (string * list string) :=
  flat_map (fun entry => map (fun rule => (fst entry, rule)) (snd entry)) am.

(** * Properties *)

(** ** Strings and lists *)

Lemma append_nil_r (s : string) : s ++ "" = s.
Proof. induction s as [|a s IH]; simpl; [reflexivity | now rewrite IH]. Qed.

Lemma append_assoc (a b c : string) : (a ++ b) ++ c = a ++ (b ++ c).
Proof. induction a as [|x a IH]; simpl; [reflexivity | now rewrite IH]. Qed.

Lemma firstn_succ_nth {A} (d : A) (l : list A) (n : nat) :
  n < List.length l -> firstn (S n) l = (firstn n l ++ [nth n l d])%list.
Proof.
  revert n; induction l as [|x l IH]; intros n Hn; simpl in Hn; [lia|].
  destruct n as [|n]; [reflexivity|].
  simpl. f_equal. apply IH. lia.
Qed.

Lemma separated_app (sep : string) (l1 l2 : list string) :
  separated sep (l1 ++ l2) = separated sep l1 ++ separated sep l2.
Proof.
  induction l1 as [|v l1 IH]; simpl; [reflexivity|].
  rewrite IH, !append_assoc. reflexivity.
Qed.

(** ** The loops of the codec *)

(** The builder loop of [String] writes a separator and a value per index. *)
Lemma builder_loop (values : list string) (n : nat) (sb : string) :
  n <= List.length values ->
  fold_left (fun sb i => (sb ++ prefixLine) ++ nth i values "") (seq 0 n) sb
  = sb ++ separated prefixLine (firstn n values).
Proof.
  induction n as [|n IH]; intros Hn.
  - simpl. now rewrite append_nil_r.
  - rewrite seq_S, fold_left_app, IH by lia.
    rewrite (firstn_succ_nth "") by lia.
    rewrite separated_app. cbn [fold_left separated Nat.add].
    rewrite append_nil_r, !append_assoc. reflexivity.
Qed.

(** The append loop of [toStringPolicy] copies one value per index. *)
Lemma policy_loop (values : list string) (n : nat) (policy : list string) :
  n <= List.length values ->
  fold_left (fun policy i => (policy ++ [nth i values ""])%list) (seq 0 n) policy
  = (policy ++ firstn n values)%list.
Proof.
  induction n as [|n IH]; intros Hn.
  - simpl. now rewrite app_nil_r.
  - rewrite seq_S, fold_left_app, IH by lia.
    rewrite (firstn_succ_nth "") by lia.
    cbn [fold_left Nat.add]. now rewrite app_assoc.
Qed.

(** What the backwards scan of [getLastNonEmptyIndex] returns. *)
Lemma lastNonEmptyBelow_spec (values : list string) (n : nat) :
  let last := lastNonEmptyBelow values n in
  (-1 <= last < Z.of_nat n)%Z
  /\ ((0 <= last)%Z -> nth (Z.to_nat last) values "" <> "")
  /\ (forall j, (last < Z.of_nat j)%Z -> j < n -> nth j values "" = "").
Proof.
  induction n as [|n IH]; cbn [lastNonEmptyBelow].
  - split; [lia|]. split; intros; lia.
  - destruct (String.eqb_spec (nth n values "") "") as [He|Hne].
    + destruct IH as (Hb & Hnz & Hz). split; [lia|]. split; [exact Hnz|].
      intros j Hj Hlt. destruct (Nat.eq_dec j n) as [->|Hjn]; [exact He|].
      apply Hz; lia.
    + split; [lia|]. split.
      * intros _. now rewrite Nat2Z.id.
      * intros j Hj Hlt. lia.
Qed.

Lemma getLastNonEmptyIndex_spec (values : list string) :
  let last := getLastNonEmptyIndex values in
  (-1 <= last < Z.of_nat (List.length values))%Z
  /\ ((0 <= last)%Z -> nth (Z.to_nat last) values "" <> "")
  /\ (forall j, (last < Z.of_nat j)%Z -> nth j values "" = "").
Proof.
  unfold getLastNonEmptyIndex.
  destruct (lastNonEmptyBelow_spec values (List.length values)) as (Hb & Hnz & Hz).
  split; [lia|]. split; [exact Hnz|].
  intros j Hj. destruct (Nat.lt_ge_cases j (List.length values)) as [Hlt|Hge].
  - now apply Hz.
  - now apply nth_overflow.
Qed.

Lemma upTo_bound (values : list string) :
  Z.to_nat (getLastNonEmptyIndex values + 1) <= List.length values.
Proof.
  destruct (getLastNonEmptyIndex_spec values) as (Hb & _). lia.
Qed.

(** ** Trimming trailing empty values *)

Lemma trim_snoc_nonempty (l : list string) (x : string) :
  x <> "" -> trimTrailingEmpty (l ++ [x]) = (l ++ [x])%list.
Proof.
  intros Hx. induction l as [|v l IH]; simpl.
  - apply String.eqb_neq in Hx. now rewrite Hx.
  - rewrite IH. destruct (l ++ [x])%list eqn:E; [|reflexivity].
    destruct l; discriminate.
Qed.

Lemma trim_snoc_empty (l : list string) :
  trimTrailingEmpty (l ++ [""]) = trimTrailingEmpty l.
Proof.
  induction l as [|v l IH]; simpl; [reflexivity|]. now rewrite IH.
Qed.

Lemma trim_app_repeat (l : list string) (k : nat) :
  trimTrailingEmpty (l ++ repeat "" k) = trimTrailingEmpty l.
Proof.
  revert l; induction k as [|k IH]; intros l; simpl.
  - now rewrite app_nil_r.
  - change ("" :: repeat "" k) with ([""] ++ repeat "" k)%list.
    rewrite app_assoc, IH. apply trim_snoc_empty.
Qed.

(** The trimmed values are a prefix of the values: only empty strings are
    cut, and only at the end. *)
Lemma trim_prefix (l : list string) :
  exists k, l = (trimTrailingEmpty l ++ repeat "" k)%list.
Proof.
  induction l as [|v l (k & IH)]; simpl.
  - exists 0. reflexivity.
  - destruct (trimTrailingEmpty l) as [|t ts] eqn:E.
    + destruct (String.eqb_spec v "") as [->|Hv].
      * exists (S k). simpl. simpl in IH. now rewrite IH at 1.
      * exists k. simpl. simpl in IH. now rewrite IH at 1.
    + exists k. simpl. now rewrite IH at 1.
Qed.

Lemma lastNonEmptyBelow_app (l m : list string) (n : nat) :
  n <= List.length l -> lastNonEmptyBelow (l ++ m) n = lastNonEmptyBelow l n.
Proof.
  induction n as [|n IH]; intros Hn; simpl; [reflexivity|].
  rewrite app_nth1 by lia. rewrite IH by lia. reflexivity.
Qed.

Lemma firstn_app_within {A} (l m : list A) (n : nat) :
  n <= List.length l -> firstn n (l ++ m) = firstn n l.
Proof.
  intros Hn. rewrite firstn_app.
  replace (n - List.length l) with 0 by lia.
  simpl. apply app_nil_r.
Qed.

(** The values up to the index found by [getLastNonEmptyIndex] are the
    trimmed values. *)
Lemma firstn_last_is_trim (values : list string) :
  firstn (Z.to_nat (getLastNonEmptyIndex values + 1)) values
  = trimTrailingEmpty values.
Proof.
  induction values as [|x l IH] using rev_ind; [reflexivity|].
  unfold getLastNonEmptyIndex. rewrite length_app, Nat.add_1_r.
  cbn [lastNonEmptyBelow List.length].
  rewrite nth_middle.
  destruct (String.eqb_spec x "") as [->|Hx].
  - rewrite lastNonEmptyBelow_app by lia. rewrite trim_snoc_empty, <- IH.
    apply firstn_app_within, upTo_bound.
  - rewrite trim_snoc_nonempty by assumption.
    replace (Z.to_nat (Z.of_nat (List.length l) + 1)) with (List.length (l ++ [x])).
    + apply firstn_all.
    + rewrite length_app. simpl. lia.
Qed.

(** ** The rule codec *)

Lemma String_is_separated (r : CasbinRule) :
  String_ r = Ptype r ++ separated prefixLine (trimTrailingEmpty (getValues r)).
Proof.
  unfold String_, upTo. rewrite builder_loop by apply upTo_bound.
  now rewrite firstn_last_is_trim.
Qed.

Lemma toStringPolicy_is_trim (c : CasbinRule) :
  toStringPolicy c
  = ((if String.eqb (Ptype c) "" then [] else [Ptype c])
     ++ trimTrailingEmpty (getValues c))%list.
Proof.
  unfold toStringPolicy, upTo. rewrite policy_loop by apply upTo_bound.
  now rewrite firstn_last_is_trim.
Qed.

(** C5. [String] emits the rule type, then, for every index from 0 up to
    the last index holding a non-empty value among the columns v0..v5, the
    separator followed by the column at that index, empty interior values
    included; that last index is -1 when every column is empty, and then
    the line is the rule type alone. *)
Theorem String_emits_up_to_last_non_empty (r : CasbinRule) :
  let columns := [V0 r; V1 r; V2 r; V3 r; V4 r; V5 r] in
  let last := getLastNonEmptyIndex (getValues r) in
  getValues r = columns
  /\ String_ r
     = Ptype r ++ separated ", " (firstn (Z.to_nat (last + 1)) columns)
  /\ (-1 <= last <= 5)%Z
  /\ ((0 <= last)%Z -> nth (Z.to_nat last) columns "" <> "")
  /\ (forall j, (last < Z.of_nat j)%Z -> nth j columns "" = "")
  /\ ((forall v, In v columns -> v = "") -> last = (-1)%Z /\ String_ r = Ptype r).
Proof.
  intros columns last.
  assert (Hcols : getValues r = columns) by reflexivity.
  destruct (getLastNonEmptyIndex_spec (getValues r)) as (Hb & Hnz & Hz).
  fold last in Hb, Hnz, Hz. rewrite Hcols in Hb, Hnz, Hz.
  assert (Hline : String_ r
            = Ptype r ++ separated ", " (firstn (Z.to_nat (last + 1)) columns)).
  { unfold String_, upTo. fold last. rewrite Hcols.
    apply builder_loop. rewrite <- Hcols. apply upTo_bound. }
  split; [exact Hcols|]. split; [exact Hline|].
  split; [change (List.length columns) with 6 in Hb; lia|].
  split; [exact Hnz|]. split; [exact Hz|].
  intros Hall.
  assert (Hl : last = (-1)%Z).
  { destruct (Z_lt_le_dec last 0) as [Hneg|Hpos]; [lia|].
    exfalso. apply (Hnz Hpos). apply Hall. apply nth_In.
    change (List.length columns) with 6 in *. lia. }
  split; [exact Hl|]. rewrite Hline, Hl. simpl. apply append_nil_r.
Qed.

(** A row with an empty interior value and empty trailing ones: both
    separators of the interior value are written, nothing after v2. *)
Lemma String_emits_witness :
  let r := mkCasbinRule "x" "p" "alice" "" "read" "" "" "" in
  getLastNonEmptyIndex (getValues r) = 2%Z
  /\ String_ r = "p, alice, , read".
Proof.
  intros r.
  destruct (String_emits_up_to_last_non_empty r) as (_ & Hline & _).
  split; [reflexivity|]. rewrite Hline. reflexivity.
Defined.

Section Codec.

Variable Checksum : Z -> list byte -> list byte.

Lemma savePolicyLine_Ptype (ptype : string) (rule : list string) :
  Ptype (savePolicyLine Checksum ptype rule) = ptype.
Proof.
  unfold savePolicyLine.
  repeat (destruct (Nat.ltb _ _)); reflexivity.
Qed.

Lemma savePolicyLine_ID (ptype : string) (rule : list string) :
  ID (savePolicyLine Checksum ptype rule) = policyID Checksum ptype rule.
Proof. reflexivity. Qed.

(** The columns written by [savePolicyLine]: the first six values, then
    empty strings. *)
Lemma savePolicyLine_values (ptype : string) (rule : list string) :
  getValues (savePolicyLine Checksum ptype rule) = sixSlots (firstn 6 rule).
Proof.
  destruct rule as [|a [|b [|c [|d [|e [|f [|g rest]]]]]]]; reflexivity.
Qed.

Lemma savePolicyLine_encodes (ptype : string) (rule : list string) :
  encodesRule Checksum ptype rule (savePolicyLine Checksum ptype rule).
Proof.
  split; [reflexivity|]. split; [apply savePolicyLine_Ptype|].
  exact (savePolicyLine_values ptype rule).
Qed.

(** C3. A rule of at most six values is encoded into a row by
    [savePolicyLine]; the line rendered by [String] lists the rule type
    and the values of the rule without its trailing empty values, and
    [toStringPolicy] gives back the rule type (when it is not empty)
    followed by exactly those values: the original rule up to trailing
    empty values, which are the only thing cut. *)
Theorem roundtrip_up_to_trailing_empty
        (ptype : string) (rule : list string)
        (Harity : List.length rule <= 6) :
  let row := savePolicyLine Checksum ptype rule in
  toStringPolicy row
  = ((if String.eqb ptype "" then [] else [ptype])
     ++ trimTrailingEmpty rule)%list
  /\ String_ row = ptype ++ separated ", " (trimTrailingEmpty rule)
  /\ exists k, rule = (trimTrailingEmpty rule ++ repeat "" k)%list.
Proof.
  intros row.
  assert (Hv : trimTrailingEmpty (getValues row) = trimTrailingEmpty rule).
  { unfold row. rewrite savePolicyLine_values.
    rewrite firstn_all2 by lia. unfold sixSlots. apply trim_app_repeat. }
  split; [|split].
  - rewrite toStringPolicy_is_trim, Hv. unfold row.
    now rewrite savePolicyLine_Ptype.
  - rewrite String_is_separated, Hv. unfold row.
    now rewrite savePolicyLine_Ptype.
  - apply trim_prefix.
Qed.

End Codec.

(** An instance of the round trip: an interior empty value is kept, the
    trailing ones are cut. *)
Lemma roundtrip_witness :
  List.length ["alice"; ""; "read"; ""] <= 6
  /\ toStringPolicy (savePolicyLine sampleChecksum "p" ["alice"; ""; "read"; ""])
     = ["p"; "alice"; ""; "read"].
Proof.
  split; [simpl; lia|].
  exact (proj1 (roundtrip_up_to_trailing_empty sampleChecksum "p"
                  ["alice"; ""; "read"; ""] ltac:(simpl; lia))).
Defined.

(** ** The content identifier *)


(** [strings.Join] of a non-empty slice: the head, then a separator before
    every other element. *)
Lemma Join_cons (x : string) (rest : list string) (sep : string) :
  Go.Join (x :: rest) sep = x ++ separated sep rest.
Proof.
  revert x; induction rest as [|y rest IH]; intros x.
  - simpl. now rewrite append_nil_r.
  - change (Go.Join (x :: y :: rest) sep) with (x ++ sep ++ Go.Join (y :: rest) sep).
    rewrite IH. reflexivity.
Qed.

Lemma policyData_separated (ptype : string) (rule : list string) :
  policyData ptype rule = ptype ++ separated "," rule.
Proof. apply Join_cons. Qed.




Section IdentifierFacts.

Variable Checksum : Z -> list byte -> list byte.


End IdentifierFacts.


(** ** The table under insert and delete *)

Lemma has_id_In (id : string) (t : Table) :
  has_id id t = true <-> In id (map ID t).
Proof.
  unfold has_id. rewrite existsb_exists, in_map_iff.
  split; intros (r & H1 & H2).
  - apply String.eqb_eq in H2. now exists r.
  - exists r. split; [assumption|]. now apply String.eqb_eq.
Qed.

Lemma has_id_app (id : string) (t1 t2 : Table) :
  has_id id (t1 ++ t2)%list = has_id id t1 || has_id id t2.
Proof. apply existsb_app. Qed.

Lemma countID_app (id : string) (t1 t2 : Table) :
  countID id (t1 ++ t2)%list = countID id t1 + countID id t2.
Proof. unfold countID. now rewrite filter_app, length_app. Qed.

Lemma countID_absent (id : string) (t : Table) :
  has_id id t = false -> countID id t = 0.
Proof.
  unfold countID, has_id. induction t as [|r t IH]; simpl; [reflexivity|].
  intros H. apply orb_false_iff in H as (H1 & H2).
  rewrite H1. now apply IH.
Qed.

(** Under the primary-key constraint a present identifier names one row. *)
Lemma countID_present (id : string) (t : Table) :
  uniqueIDs t -> has_id id t = true -> countID id t = 1.
Proof.
  unfold uniqueIDs. induction t as [|r t IH]; simpl; intros Hnd Hin.
  - discriminate.
  - inversion Hnd as [|x l Hnotin Hnd']; subst.
    unfold countID, has_id in *. simpl in *.
    destruct (String.eqb_spec (ID r) id) as [He|Hne].
    + simpl. f_equal. apply (countID_absent id t).
      destruct (has_id id t) eqn:E; [|reflexivity].
      apply has_id_In in E. subst id. contradiction.
    + simpl in Hin. now apply IH.
Qed.

Lemma insertIgnore_has_id (line : CasbinRule) (t : Table) :
  has_id (ID line) (insertIgnore line t) = true.
Proof.
  unfold insertIgnore. destruct (has_id (ID line) t) eqn:E; [exact E|].
  rewrite has_id_app. simpl. rewrite String.eqb_refl.
  now rewrite orb_true_r.
Qed.

Lemma insertIgnore_keeps_id (line : CasbinRule) (id : string) (t : Table) :
  has_id id t = true -> has_id id (insertIgnore line t) = true.
Proof.
  unfold insertIgnore. intros H. destruct (has_id (ID line) t); [exact H|].
  rewrite has_id_app, H. reflexivity.
Qed.

Lemma insertIgnore_unique (line : CasbinRule) (t : Table) :
  uniqueIDs t -> uniqueIDs (insertIgnore line t).
Proof.
  unfold insertIgnore, uniqueIDs. intros Hnd.
  destruct (has_id (ID line) t) eqn:E; [exact Hnd|].
  rewrite map_app. simpl. apply NoDup_app.
  - exact Hnd.
  - constructor; [simpl; tauto | constructor].
  - intros id Hin [Heq|[]]. subst id.
    apply has_id_In in Hin. congruence.
Qed.

Lemma insertIgnore_In (line r : CasbinRule) (t : Table) :
  In r (insertIgnore line t) -> In r t \/ r = line.
Proof.
  unfold insertIgnore. destruct (has_id (ID line) t); [tauto|].
  rewrite in_app_iff. simpl. intuition.
Qed.

(** Inserting a content-duplicate changes nothing. *)
Lemma insertIgnore_idem (line : CasbinRule) (t : Table) :
  insertIgnore line (insertIgnore line t) = insertIgnore line t.
Proof.
  unfold insertIgnore at 1. now rewrite insertIgnore_has_id.
Qed.

(** The table after inserting a list of rows, one after the other. *)
Lemma insert_all_unique (lines : list CasbinRule) (t : Table) :
  uniqueIDs t -> uniqueIDs (fold_left (fun t l => insertIgnore l t) lines t).
Proof.
  revert t; induction lines as [|l lines IH]; intros t Hnd; simpl; [exact Hnd|].
  apply IH, insertIgnore_unique, Hnd.
Qed.

Lemma insert_all_keeps_id (lines : list CasbinRule) (id : string) (t : Table) :
  has_id id t = true ->
  has_id id (fold_left (fun t l => insertIgnore l t) lines t) = true.
Proof.
  revert t; induction lines as [|l lines IH]; intros t H; simpl; [exact H|].
  apply IH, insertIgnore_keeps_id, H.
Qed.

Lemma insert_all_has_id (lines : list CasbinRule) (l : CasbinRule) (t : Table) :
  In l lines ->
  has_id (ID l) (fold_left (fun t l => insertIgnore l t) lines t) = true.
Proof.
  revert t; induction lines as [|x lines IH]; intros t Hin; simpl; [destruct Hin|].
  destruct Hin as [->|Hin].
  - apply insert_all_keeps_id, insertIgnore_has_id.
  - now apply IH.
Qed.

Lemma insert_all_In (lines : list CasbinRule) (r : CasbinRule) (t : Table) :
  In r (fold_left (fun t l => insertIgnore l t) lines t) ->
  In r t \/ In r lines.
Proof.
  revert t; induction lines as [|x lines IH]; intros t Hin; simpl in *; [tauto|].
  apply IH in Hin as [Hin|Hin]; [|tauto].
  apply insertIgnore_In in Hin. intuition.
Qed.

(** ** Transactions *)

Lemma noFault_nil (n : nat) (c : Table) (p : option Table) :
  noFault n (mkWorld c p []) = true.
Proof. unfold noFault. simpl. now rewrite firstn_nil. Qed.

Lemma noFault_cons (n : nat) (c : Table) (p : option Table)
      (b : bool) (fs : list bool) :
  noFault (S n) (mkWorld c p (b :: fs)) = negb b && noFault n (mkWorld c p fs).
Proof. reflexivity. Qed.

(** One statement inside an open transaction. *)
Lemma tx_Exec_run (s : Stmt) (c p p' : Table) (fs : list bool) :
  exec_stmt s p = Some p' ->
  tx_Exec s (mkWorld c (Some p) fs)
  = match fs with
    | [] => (Ok tt, mkWorld c (Some p') [])
    | true :: fs' => (Err ErrStorage, mkWorld c (Some p) fs')
    | false :: fs' => (Ok tt, mkWorld c (Some p') fs')
    end.
Proof.
  intros He. unfold tx_Exec.
  destruct fs as [|[|] fs]; cbn [next_fault faults pending committed];
    try rewrite He; reflexivity.
Qed.

Lemma exec_insert (line : CasbinRule) (t : Table) :
  exec_stmt (InsertIgnore line) t = Some (insertIgnore line t).
Proof.
  unfold insertIgnore. simpl. now destruct (has_id (ID line) t).
Qed.

(** A loop of inserts inside an open transaction: it never touches the
    committed rows; it runs to its end exactly when none of its calls
    fails, and the working copy then holds the rows inserted in order. *)
Lemma insert_loop (lines : list CasbinRule) (c p : Table) (fs : list bool) :
  let w := mkWorld c (Some p) fs in
  let out := forEach (fun line => tx_Exec (InsertIgnore line)) lines w in
  committed (snd out) = c
  /\ (noFault (List.length lines) w = true ->
      out = (Ok tt,
             mkWorld c (Some (fold_left (fun t l => insertIgnore l t) lines p))
                     (skipn (List.length lines) fs)))
  /\ (noFault (List.length lines) w = false -> fst out = Err ErrStorage).
Proof.
  revert p fs; induction lines as [|l lines IH]; intros p fs w out.
  - subst out w. simpl. repeat split; try reflexivity.
    unfold noFault. simpl. discriminate.
  - subst out w. cbn [forEach List.length].
    unfold bind. rewrite (tx_Exec_run _ _ _ _ _ (exec_insert l p)).
    destruct fs as [|[|] fs].
    + destruct (IH (insertIgnore l p) []) as (H1 & H2 & H3).
      cbv beta iota.
      split; [exact H1|]. split.
      * intros _. cbn [fold_left]. rewrite H2 by apply noFault_nil.
        now rewrite !skipn_nil.
      * rewrite noFault_nil. discriminate.
    + cbn. repeat split; try reflexivity. discriminate.
    + destruct (IH (insertIgnore l p) fs) as (H1 & H2 & H3).
      cbv beta iota.
      split; [exact H1|]. rewrite noFault_cons. cbn [negb andb skipn fold_left].
      split; assumption.
Qed.

Lemma In_gatherLines (Checksum : Z -> list byte -> list byte)
      (am : AssertionMap) (r : CasbinRule) :
  In r (gatherLines Checksum am) <->
  exists ptype ast rule,
    In (ptype, ast) am /\ In rule ast /\ r = savePolicyLine Checksum ptype rule.
Proof.
  unfold gatherLines. rewrite in_flat_map. split.
  - intros ([ptype ast] & Hin & Hr). simpl in Hr.
    apply in_map_iff in Hr as (rule & <- & Hrule).
    now exists ptype, ast, rule.
  - intros (ptype & ast & rule & Hin & Hrule & ->).
    exists (ptype, ast). split; [assumption|]. simpl.
    apply in_map_iff. now exists rule.
Qed.

Lemma noFault_last (n : nat) (fs : list bool) :
  forallb negb (firstn (S n) fs)
  = forallb negb (firstn n fs) && negb (hd false (skipn n fs)).
Proof.
  revert fs; induction n as [|n IH]; intros fs.
  - destruct fs as [|b fs]; simpl; [reflexivity|]. now rewrite andb_true_r.
  - destruct fs as [|b fs]; [reflexivity|].
    change (firstn (S (S n)) (b :: fs)) with (b :: firstn (S n) fs).
    change (firstn (S n) (b :: fs)) with (b :: firstn n fs).
    cbn [forallb skipn]. rewrite IH. now rewrite andb_assoc.
Qed.

(** [tx.Commit] at the end of a transaction. *)
Lemma tx_Commit_run (msg : string) (c p : Table) (fs : list bool) :
  wrapErr msg tx_Commit (mkWorld c (Some p) fs)
  = if hd false fs
    then (Err (Errorf msg ErrStorage), mkWorld c None (tl fs))
    else (Ok tt, mkWorld p None (tl fs)).
Proof. destruct fs as [|[|] fs]; reflexivity. Qed.

Section SaveFacts.

Variable Checksum : Z -> list byte -> list byte.

(** The body of [SavePolicy] once the transaction is open. *)
Lemma SavePolicy_body (lines : list CasbinRule) (c : Table) (fs : list bool) :
  let w := mkWorld c (Some c) fs in
  let out :=
    deferRollback
      (tx_Exec DeleteAll ;;;
       forEach (fun line => tx_Exec (InsertIgnore line)) lines ;;;
       wrapErr "commit DB transaction" tx_Commit) w in
  pending (snd out) = None
  /\ (noFault (2 + List.length lines) w = true ->
      fst out = Ok tt
      /\ committed (snd out)
         = fold_left (fun t l => insertIgnore l t) lines [])
  /\ (noFault (2 + List.length lines) w = false ->
      (exists e, fst out = Err e) /\ committed (snd out) = c).
Proof.
  intros w out.
  split.
  { subst out. unfold deferRollback.
    match goal with |- context [let (_, _) := ?b in _] => now destruct b end. }
  subst out w. unfold deferRollback, bind, noFault. cbn [faults].
  rewrite (tx_Exec_run DeleteAll c c [] fs eq_refl).
  change (2 + List.length lines) with (S (S (List.length lines))).
  destruct fs as [|[|] fs].
  - (* no failure is scheduled *)
    destruct (insert_loop lines c [] []) as (_ & Hok & _).
    cbv zeta in Hok. rewrite Hok by apply noFault_nil.
    rewrite skipn_nil. rewrite tx_Commit_run. cbn.
    split; [intros _; split; reflexivity | discriminate].
  - (* the delete fails *)
    cbn. split; [discriminate|]. intros _. split; [now eexists | reflexivity].
  - rewrite noFault_last. cbn [firstn forallb negb andb].
    destruct (insert_loop lines c [] fs) as (Hc & Hok & Herr).
    cbv zeta in Hc, Hok, Herr. unfold noFault in Hok, Herr. cbn [faults] in Hok, Herr.
    destruct (forallb negb (firstn (List.length lines) fs)) eqn:Hq.
    + (* the inserts go through *)
      rewrite Hok by reflexivity. rewrite tx_Commit_run.
      cbn [skipn andb].
      destruct (hd false (skipn (List.length lines) fs)); cbn.
      * split; [discriminate|]. intros _. split; [now eexists | reflexivity].
      * split; [intros _; split; reflexivity | discriminate].
    + (* an insert fails *)
      specialize (Herr eq_refl).
      destruct (forEach _ lines _) as [[[]|e|] w'] eqn:E;
        cbn in Herr; try discriminate.
      cbn in Hc. cbn. split; [discriminate|]. intros _.
      split; [now eexists | exact Hc].
Qed.

End SaveFacts.

Lemma sectionIs_model_get (model : Model) (sec : string) (am : AssertionMap) :
  sectionIs model sec am -> model_get model sec = am.
Proof.
  induction 1 as [sec|sec am rest|k sec other am rest Hne _ IH].
  - reflexivity.
  - cbn [model_get]. now rewrite String.eqb_refl.
  - cbn [model_get]. apply String.eqb_neq in Hne. now rewrite Hne.
Qed.

Section SaveTheorem.

Variable Checksum : Z -> list byte -> list byte.

Lemma gatherLines_rulesOf (am : AssertionMap) :
  gatherLines Checksum am
  = map (fun pr => savePolicyLine Checksum (fst pr) (snd pr)) (rulesOf am).
Proof.
  unfold gatherLines, rulesOf. induction am as [|[ptype ast] am IH]; [reflexivity|].
  cbn [flat_map fst snd]. rewrite map_app, IH, map_map. reflexivity.
Qed.

(** Every way [SavePolicy] can go, by the schedule of failures. *)
Lemma SavePolicy_cases (model : Model) (w : World) :
  let lines := (gatherLines Checksum (model_get model "p")
                ++ gatherLines Checksum (model_get model "g"))%list in
  let out := SavePolicy Checksum model w in
  (noFault 1 w = false ->
   out = (Err (Errorf "start DB transaction" ErrStorage),
          mkWorld (committed w) (pending w) (tl (faults w))))
  /\ (noFault 1 w = true -> pending (snd out) = None)
  /\ (noFault (3 + List.length lines) w = true ->
      fst out = Ok tt
      /\ committed (snd out) = fold_left (fun t l => insertIgnore l t) lines [])
  /\ (noFault (3 + List.length lines) w = false ->
      (exists e, fst out = Err e) /\ committed (snd out) = committed w).
Proof.
  intros lines out. subst out. unfold SavePolicy. fold lines.
  destruct w as [c p fs]. unfold bind at 1.
  destruct fs as [|[|] fs].
  - change (wrapErr "start DB transaction" db_Begin (mkWorld c p []))
      with (Ok tt, mkWorld c (Some c) []).
    cbv beta iota.
    destruct (SavePolicy_body lines c []) as (Hp & Hok & Herr).
    cbv zeta in Hp, Hok, Herr.
    rewrite noFault_nil in *. rewrite !noFault_nil.
    split; [discriminate|]. split; [intros _; exact Hp|].
    split; [intros _; now apply Hok | discriminate].
  - cbn. split; [reflexivity|]. split; [discriminate|].
    split; [discriminate|]. intros _. split; [now eexists | reflexivity].
  - change (wrapErr "start DB transaction" db_Begin (mkWorld c p (false :: fs)))
      with (Ok tt, mkWorld c (Some c) fs).
    cbv beta iota.
    destruct (SavePolicy_body lines c fs) as (Hp & Hok & Herr).
    cbv zeta in Hp, Hok, Herr.
    change (noFault (3 + List.length lines) (mkWorld c p (false :: fs)))
      with (noFault (2 + List.length lines) (mkWorld c (Some c) fs)).
    split; [discriminate|]. split; [intros _; exact Hp|].
    split; [exact Hok | exact Herr].
Qed.

(** C2, as the code has it.  [SavePolicy] is all or nothing.  Whatever the
    store does (any schedule of failing calls), a call that does not
    succeed leaves the committed table exactly as it was, and once the
    transaction has begun it is closed when the call returns: committed
    on success, rolled back otherwise.  The call succeeds exactly when the
    begin, the delete, every insert and the commit all go through.  On
    success the identifiers of the table are pairwise different, every
    rule of the sections "p" and "g" has exactly one row with its content
    identifier, and every row is the encoding of such a rule; when no two
    gathered rules with different encodings share an identifier, every
    gathered rule has its own encoding in the table. *)
Theorem SavePolicy_all_or_nothing
        (model : Model) (pm gm : AssertionMap) (w : World)
        (Hp : sectionIs model "p" pm) (Hg : sectionIs model "g" gm) :
  let rules := (rulesOf pm ++ rulesOf gm)%list in
  let id := fun ptype rule =>
              Go.SprintfHex (Checksum 0 (Go.bytes (Go.Join (ptype :: rule) ","))) in
  let out := SavePolicy Checksum model w in
  let t' := committed (snd out) in
  (fst out <> Ok tt -> t' = committed w)
  /\ (noFault 1 w = true -> pending (snd out) = None)
  /\ (noFault 1 w = false ->
      out = (Err (Errorf "start DB transaction" ErrStorage),
             mkWorld (committed w) (pending w) (tl (faults w))))
  /\ (fst out = Ok tt <-> noFault (3 + List.length rules) w = true)
  /\ (fst out = Ok tt ->
      pending (snd out) = None
      /\ t' = fold_left (fun t l => insertIgnore l t)
                        (map (fun pr => savePolicyLine Checksum (fst pr) (snd pr))
                             rules) []
      /\ uniqueIDs t'
      /\ (forall ptype rule, In (ptype, rule) rules ->
                             countID (id ptype rule) t' = 1)
      /\ (forall r, In r t' ->
            exists ptype rule,
              In (ptype, rule) rules /\ encodesRule Checksum ptype rule r)
      /\ ((forall p1 r1 p2 r2 row1 row2,
              In (p1, r1) rules -> In (p2, r2) rules ->
              encodesRule Checksum p1 r1 row1 ->
              encodesRule Checksum p2 r2 row2 ->
              ID row1 = ID row2 -> row1 = row2) ->
          forall ptype rule, In (ptype, rule) rules ->
            exists r, In r t' /\ encodesRule Checksum ptype rule r)).
Proof.
  intros rules id out t'.
  pose (lines := (gatherLines Checksum (model_get model "p")
                  ++ gatherLines Checksum (model_get model "g"))%list).
  assert (Hlines : lines
            = map (fun pr => savePolicyLine Checksum (fst pr) (snd pr)) rules).
  { unfold lines, rules.
    rewrite (sectionIs_model_get _ _ _ Hp), (sectionIs_model_get _ _ _ Hg).
    now rewrite !gatherLines_rulesOf, map_app. }
  assert (Hlen : List.length lines = List.length rules).
  { rewrite Hlines. apply length_map. }
  destruct (SavePolicy_cases model w) as (Hbegin & Hclosed & Hok & Herr).
  cbv zeta in Hbegin, Hclosed, Hok, Herr. fold lines in Hok, Herr.
  fold out in Hbegin, Hclosed, Hok, Herr. fold t' in Hok, Herr.
  rewrite Hlen in Hok, Herr.
  assert (Hin : forall l, In l lines <->
              exists ptype rule, In (ptype, rule) rules
                                 /\ l = savePolicyLine Checksum ptype rule).
  { intros l. rewrite Hlines, in_map_iff. split.
    - intros ([ptype rule] & <- & Hpr). now exists ptype, rule.
    - intros (ptype & rule & Hpr & ->). now exists (ptype, rule). }
  destruct (noFault (3 + List.length rules) w) eqn:Hq.
  - destruct (Hok eq_refl) as (Hres & Htab).
    split; [intros Hne; contradiction|].
    split; [exact Hclosed|]. split; [exact Hbegin|].
    split; [tauto|]. intros _.
    assert (Hone : noFault 1 w = true).
    { destruct (noFault 1 w) eqn:H1; [reflexivity|].
      rewrite (Hbegin eq_refl) in Hres. discriminate. }
    split; [exact (Hclosed Hone)|].
    split; [now rewrite <- Hlines|].
    assert (Huniq : uniqueIDs t').
    { rewrite Htab. apply insert_all_unique. constructor. }
    split; [exact Huniq|]. split; [|split].
    + intros ptype rule Hpr.
      apply countID_present; [exact Huniq|].
      change (id ptype rule) with (ID (savePolicyLine Checksum ptype rule)).
      rewrite Htab. apply insert_all_has_id. apply Hin. now exists ptype, rule.
    + intros r Hr. rewrite Htab in Hr.
      apply insert_all_In in Hr as [[]|Hr].
      apply Hin in Hr as (ptype & rule & Hpr & ->).
      exists ptype, rule. split; [exact Hpr | apply savePolicyLine_encodes].
    + intros Hinj ptype rule Hpr.
      assert (Hl : In (savePolicyLine Checksum ptype rule) lines).
      { apply Hin. now exists ptype, rule. }
      pose proof (insert_all_has_id lines _ [] Hl) as Hhas.
      rewrite <- Htab in Hhas. apply has_id_In, in_map_iff in Hhas.
      destruct Hhas as (r & Hid & Hr).
      assert (Hrl : In r lines).
      { rewrite Htab in Hr. now apply insert_all_In in Hr as [[]|Hr]. }
      apply Hin in Hrl as (p2 & r2 & Hpr2 & ->).
      exists (savePolicyLine Checksum p2 r2). split; [exact Hr|].
      rewrite (Hinj p2 r2 ptype rule _ _ Hpr2 Hpr
                    (savePolicyLine_encodes Checksum p2 r2)
                    (savePolicyLine_encodes Checksum ptype rule) Hid).
      apply savePolicyLine_encodes.
  - destruct (Herr eq_refl) as ((e & He) & Htab).
    split; [intros _; exact Htab|].
    split; [exact Hclosed|]. split; [exact Hbegin|].
    split; [rewrite He; split; discriminate|].
    rewrite He. discriminate.
Qed.

End SaveTheorem.

(** A model with a section the save does not read, a rule given twice and
    a rule with an empty interior value.  With a store that does not fail
    the previous row is replaced by the three distinct rules; when the
    second insert fails the table is the previous one and the transaction
    is closed. *)
Lemma SavePolicy_all_or_nothing_witness :
  let pm := [("p", [["alice"; "data1"; "read"]; ["alice"; "data1"; "read"]]);
             ("p2", [["bob"; ""; "write"]])] in
  let gm := [("g", [["alice"; "admin"]])] in
  let model := [("e", [("e", [["some"; "where"]])]); ("p", pm); ("g", gm)] in
  let before := [savePolicyLine sampleChecksum "p" ["carol"; "data3"; "read"]] in
  let hexOf := fun s => Go.SprintfHex (sampleChecksum 0%Z (Go.bytes s)) in
  sectionIs model "p" pm /\ sectionIs model "g" gm
  /\ SavePolicy sampleChecksum model (quiet before)
     = (Ok tt,
        quiet [mkCasbinRule (hexOf "p,alice,data1,read")
                            "p" "alice" "data1" "read" "" "" "";
               mkCasbinRule (hexOf "p2,bob,,write") "p2" "bob" "" "write" "" "" "";
               mkCasbinRule (hexOf "g,alice,admin") "g" "alice" "admin" "" "" "" ""])
  /\ countID (hexOf "p,alice,data1,read")
             (committed (snd (SavePolicy sampleChecksum model (quiet before)))) = 1
  /\ committed (snd (SavePolicy sampleChecksum model
                                (mkWorld before None [false; false; false; true])))
     = before
  /\ pending (snd (SavePolicy sampleChecksum model
                              (mkWorld before None [false; false; false; true])))
     = None.
Proof.
  intros pm gm model before hexOf.
  assert (Hp : sectionIs model "p" pm).
  { apply section_later; [discriminate|]. apply section_here. }
  assert (Hg : sectionIs model "g" gm).
  { apply section_later; [discriminate|].
    apply section_later; [discriminate|]. apply section_here. }
  split; [exact Hp|]. split; [exact Hg|].
  destruct (SavePolicy_all_or_nothing sampleChecksum model pm gm (quiet before)
              Hp Hg) as (_ & _ & _ & _ & Hsucc).
  destruct (SavePolicy_all_or_nothing sampleChecksum model pm gm
              (mkWorld before None [false; false; false; true]) Hp Hg)
    as (Hfail & Hclosed & _).
  split; [vm_compute; reflexivity|].
  split.
  - destruct (Hsucc ltac:(vm_compute; reflexivity)) as (_ & _ & _ & Hcount & _).
    exact (Hcount "p" ["alice"; "data1"; "read"]
                  ltac:(simpl; tauto)).
  - split.
    + apply Hfail. vm_compute. discriminate.
    + apply Hclosed. reflexivity.
Defined.

(** C2, as worded, fails in its last part.  The rules ["a,b"] and
    ["a", "b"] are two different contents with the same comma-joined
    bytes: under every hash a successful save of both stores one row, the
    one of the first, and no row holds the values a, b. *)
Lemma SavePolicy_merges_different_contents :
  let model := [("p", [("p", [["a,b"]; ["a"; "b"]])])] in
  ["a,b"] <> ["a"; "b"]
  /\ forall Checksum,
       let stored := savePolicyLine Checksum "p" ["a,b"] in
       fst (SavePolicy Checksum model (quiet [])) = Ok tt
       /\ committed (snd (SavePolicy Checksum model (quiet []))) = [stored]
       /\ [V0 stored; V1 stored] = ["a,b"; ""].
Proof.
  intros model. split; [discriminate|]. intros Checksum stored.
  destruct (SavePolicy_cases Checksum model (quiet [])) as (_ & _ & Hok & _).
  cbv zeta in Hok. destruct (Hok (noFault_nil _ _ _)) as (Hres & Htab).
  split; [exact Hres|]. split; [|reflexivity].
  rewrite Htab. cbn [model model_get String.eqb Ascii.eqb Bool.eqb gatherLines
                     flat_map map fst snd app fold_left].
  change (insertIgnore (savePolicyLine Checksum "p" ["a,b"]) []) with [stored].
  unfold insertIgnore. cbn [has_id existsb].
  change (ID (savePolicyLine Checksum "p" ["a"; "b"])) with (ID stored).
  now rewrite String.eqb_refl.
Qed.

(** ** Single statements *)

(** [a.db.Exec] when the store does not fail the call. *)
Lemma db_Exec_quiet (s : Stmt) (t t' : Table) :
  exec_stmt s t = Some t' -> db_Exec s (quiet t) = (Ok tt, quiet t').
Proof. intros He. unfold db_Exec, quiet. cbn. now rewrite He. Qed.

Section AddFacts.

Variable Checksum : Z -> list byte -> list byte.

Lemma AddPolicy_quiet (sec ptype : string) (rule : list string) (t : Table) :
  AddPolicy Checksum sec ptype rule (quiet t)
  = (Ok tt, quiet (insertIgnore (savePolicyLine Checksum ptype rule) t)).
Proof. apply db_Exec_quiet, exec_insert. Qed.

(** C6, as the code has it.  With a store that does not fail, [AddPolicy]
    called any number of times (at least once) with the same rule type
    and values succeeds and leaves the table of the first call, which has
    exactly one row with the content identifier of the rule.  When no row
    had that identifier, that row is new, comes after the rows already
    stored and holds the rule type and the first six values of the rule;
    when a row had it, nothing is inserted and the table is unchanged. *)
Theorem AddPolicy_idempotent
        (sec ptype : string) (rule : list string) (n : nat) (t : Table)
        (Hn : 1 <= n) (Hpk : uniqueIDs t) :
  let id := Go.SprintfHex (Checksum 0 (Go.bytes (Go.Join (ptype :: rule) ","))) in
  let once := committed (snd (AddPolicy Checksum sec ptype rule (quiet t))) in
  times n (AddPolicy Checksum sec ptype rule) (quiet t) = (Ok tt, quiet once)
  /\ AddPolicy Checksum sec ptype rule (quiet once) = (Ok tt, quiet once)
  /\ countID id once = 1
  /\ uniqueIDs once
  /\ (has_id id t = true -> once = t)
  /\ (has_id id t = false ->
      exists row, once = (t ++ [row])%list
                  /\ encodesRule Checksum ptype rule row).
Proof.
  intros id once.
  assert (Honce : once = insertIgnore (savePolicyLine Checksum ptype rule) t).
  { unfold once. now rewrite AddPolicy_quiet. }
  assert (Hid : ID (savePolicyLine Checksum ptype rule) = id) by reflexivity.
  assert (Hagain : AddPolicy Checksum sec ptype rule (quiet once)
                   = (Ok tt, quiet once)).
  { rewrite AddPolicy_quiet, Honce. now rewrite insertIgnore_idem. }
  assert (Hrest : forall k,
             times k (AddPolicy Checksum sec ptype rule) (quiet once)
             = (Ok tt, quiet once)).
  { induction k as [|k IH]; [reflexivity|].
    cbn [times]. unfold bind. now rewrite Hagain. }
  split; [|split; [exact Hagain|split; [|split; [|split]]]].
  - destruct n as [|n]; [lia|].
    cbn [times]. unfold bind. rewrite AddPolicy_quiet, <- Honce. apply Hrest.
  - rewrite Honce. apply countID_present.
    + now apply insertIgnore_unique.
    + rewrite <- Hid. apply insertIgnore_has_id.
  - rewrite Honce. now apply insertIgnore_unique.
  - intros Hhas. rewrite Honce. unfold insertIgnore. now rewrite Hid, Hhas.
  - intros Hfresh. exists (savePolicyLine Checksum ptype rule).
    split; [|apply savePolicyLine_encodes].
    rewrite Honce. unfold insertIgnore. now rewrite Hid, Hfresh.
Qed.

End AddFacts.

(** The same rule, with an empty interior value, added three times to a
    table that already holds another rule: one new row, with the columns
    of the rule. *)
Lemma AddPolicy_idempotent_witness :
  let t := [savePolicyLine sampleChecksum "p" ["bob"; "data2"; "write"]] in
  let rule := ["alice"; ""; "read"] in
  let row := mkCasbinRule (policyID sampleChecksum "p" rule)
                          "p" "alice" "" "read" "" "" "" in
  1 <= 3 /\ uniqueIDs t
  /\ times 3 (AddPolicy sampleChecksum "p" "p" rule) (quiet t)
     = (Ok tt, quiet (t ++ [row])%list)
  /\ countID (policyID sampleChecksum "p" rule) (t ++ [row])%list = 1.
Proof.
  intros t rule row.
  assert (Hn : 1 <= 3) by lia.
  assert (Hpk : uniqueIDs t).
  { unfold uniqueIDs, t. simpl. constructor; [simpl; tauto | constructor]. }
  destruct (AddPolicy_idempotent sampleChecksum "p" "p" rule 3 t Hn Hpk)
    as (H1 & _ & H3 & _).
  split; [exact Hn|]. split; [exact Hpk|].
  split; [exact H1 | exact H3].
Defined.

(** C6, as worded, fails.  Over a stored row of the rule ["a,b"], whose
    comma-joined content is that of ["a", "b"], adding ["a", "b"] twice
    succeeds and inserts nothing under every hash: no row holds the
    values a, b.  Over a stored row of ["alice", ""], adding ["alice"]
    twice stores a second row with the same rule type and columns under
    a hash that tells the two contents apart. *)
Lemma AddPolicy_content_absent_or_doubled :
  (forall Checksum,
      let stored := savePolicyLine Checksum "p" ["a,b"] in
      [V0 stored; V1 stored] = ["a,b"; ""]
      /\ times 2 (AddPolicy Checksum "p" "p" ["a"; "b"]) (quiet [stored])
         = (Ok tt, quiet [stored]))
  /\ (let stored := savePolicyLine sampleChecksum "p" ["alice"; ""] in
      let added := savePolicyLine sampleChecksum "p" ["alice"] in
      times 2 (AddPolicy sampleChecksum "p" "p" ["alice"]) (quiet [stored])
      = (Ok tt, quiet [stored; added])
      /\ Ptype stored = Ptype added
      /\ [V0 stored; V1 stored; V2 stored; V3 stored; V4 stored; V5 stored]
         = [V0 added; V1 added; V2 added; V3 added; V4 added; V5 added]
      /\ ID stored <> ID added).
Proof.
  split.
  - intros Checksum stored. split; [reflexivity|].
    assert (Hsame : savePolicyLine Checksum "p" ["a"; "b"]
                    = set_V1 (set_V0 stored "a") "b") by reflexivity.
    cbn [times]. unfold bind. rewrite !AddPolicy_quiet.
    assert (Habs : insertIgnore (savePolicyLine Checksum "p" ["a"; "b"]) [stored]
                   = [stored]).
    { unfold insertIgnore. cbn [has_id existsb].
      change (ID (savePolicyLine Checksum "p" ["a"; "b"])) with (ID stored).
      now rewrite String.eqb_refl. }
    now rewrite !Habs.
  - repeat split; try reflexivity. vm_compute. discriminate.
Qed.

(** ** Filters *)

Lemma matches_app (w1 w2 : Where) (r : CasbinRule) :
  matches (w1 ++ w2)%list r = matches w1 r && matches w2 r.
Proof. apply forallb_app. Qed.

Lemma column_exists_iff (k : Z) :
  column_exists (ColV k) = true <-> (0 <= k <= 5)%Z.
Proof.
  unfold column_exists, column.
  destruct (Z.eqb_spec k 0); [split; [lia|reflexivity]|].
  destruct (Z.eqb_spec k 1); [split; [lia|reflexivity]|].
  destruct (Z.eqb_spec k 2); [split; [lia|reflexivity]|].
  destruct (Z.eqb_spec k 3); [split; [lia|reflexivity]|].
  destruct (Z.eqb_spec k 4); [split; [lia|reflexivity]|].
  destruct (Z.eqb_spec k 5); [split; [lia|reflexivity]|].
  split; [discriminate | lia].
Qed.

(** The conditions built by the loop over [fieldValues] select the rows
    the positional predicate selects. *)
Lemma filterConds_matches (fieldIndex : Z) (fieldValues : list string)
      (i : nat) (acc : Where) (r : CasbinRule) :
  matches (filterConds fieldIndex i fieldValues acc) r
  = matches acc r && windowMatches fieldIndex i fieldValues r.
Proof.
  revert i acc; induction fieldValues as [|v rest IH]; intros i acc.
  - simpl. now rewrite andb_true_r.
  - cbn [filterConds windowMatches]. rewrite IH.
    destruct (String.eqb v ""); [reflexivity|].
    rewrite matches_app. cbn [matches forallb]. unfold holds. cbn [fst snd].
    rewrite andb_true_r. now rewrite andb_assoc.
Qed.

(** Every column the loop names exists when the constrained positions of
    the window are within v0..v5. *)
Lemma filterConds_exist (fieldIndex : Z) (fieldValues : list string)
      (i : nat) (acc : Where) :
  (forall j v, nth_error fieldValues j = Some v -> v <> "" ->
               (0 <= fieldIndex + Z.of_nat (i + j) <= 5)%Z) ->
  forallb (fun cond => column_exists (fst cond)) acc = true ->
  forallb (fun cond => column_exists (fst cond))
          (filterConds fieldIndex i fieldValues acc) = true.
Proof.
  revert i acc; induction fieldValues as [|v rest IH]; intros i acc Hr Hacc.
  - exact Hacc.
  - cbn [filterConds]. apply IH.
    + intros j x Hj Hx. replace (S i + j) with (i + S j) by lia.
      exact (Hr (S j) x Hj Hx).
    + destruct (String.eqb_spec v "") as [_|Hv]; [exact Hacc|].
      rewrite forallb_app, Hacc. cbn [forallb fst andb].
      rewrite andb_true_r. apply column_exists_iff.
      specialize (Hr 0 v eq_refl Hv). now rewrite Nat.add_0_r in Hr.
Qed.

Lemma windowMatches_iff (fieldIndex : Z) (fieldValues : list string)
      (i : nat) (r : CasbinRule) :
  windowMatches fieldIndex i fieldValues r = true <->
  (forall j v, nth_error fieldValues j = Some v -> v <> "" ->
               column (ColV (fieldIndex + Z.of_nat (i + j))) r = Some v).
Proof.
  revert i; induction fieldValues as [|v rest IH]; intros i.
  - simpl. split; [|reflexivity]. intros _ [|j] x H; discriminate.
  - cbn [windowMatches]. rewrite andb_true_iff, IH. split.
    + intros (Hhead & Htail) [|j] x Hj Hx.
      * injection Hj as <-. rewrite Nat.add_0_r.
        apply String.eqb_neq in Hx. rewrite Hx in Hhead.
        destruct (column _ r) as [y|]; [|discriminate].
        apply String.eqb_eq in Hhead. now subst.
      * replace (i + S j) with (S i + j) by lia. exact (Htail j x Hj Hx).
    + intros H. split.
      * destruct (String.eqb_spec v "") as [_|Hv]; [reflexivity|].
        specialize (H 0 v eq_refl Hv). rewrite Nat.add_0_r in H.
        rewrite H. apply String.eqb_refl.
      * intros j x Hj Hx. replace (S i + j) with (i + S j) by lia.
        exact (H (S j) x Hj Hx).
Qed.

(** C7. With a store that does not fail and a window whose constrained
    positions name columns of the table, [RemoveFilteredPolicy] deletes
    the rows whose rule type is the given one and whose column
    v(fieldIndex+i) equals fieldValues[i] at every position i holding a
    non-empty value, and leaves every other row as it is, in place. *)
Theorem RemoveFilteredPolicy_deletes_matching
        (sec ptype : string) (fieldIndex : Z) (fieldValues : list string)
        (t : Table) (Hrange : windowInRange fieldIndex fieldValues) :
  let selected := filterMatches ptype fieldIndex fieldValues in
  let t' := filter (fun r => negb (selected r)) t in
  RemoveFilteredPolicy sec ptype fieldIndex fieldValues (quiet t)
  = (Ok tt, quiet t')
  /\ (forall r, selected r = true <->
                Ptype r = ptype
                /\ forall i v, nth_error fieldValues i = Some v -> v <> "" ->
                     column (ColV (fieldIndex + Z.of_nat i)) r = Some v)
  /\ (forall r, In r t' <-> In r t /\ selected r = false).
Proof.
  intros selected t'. split; [|split].
  - unfold RemoveFilteredPolicy. apply db_Exec_quiet.
    cbn [exec_stmt]. rewrite filterConds_exist; [|exact Hrange|reflexivity].
    f_equal. apply filter_ext. intros r. f_equal.
    rewrite filterConds_matches. unfold selected, filterMatches.
    cbn [matches forallb]. unfold holds. cbn [fst snd column].
    now rewrite andb_true_r.
  - intros r. unfold selected, filterMatches.
    rewrite andb_true_iff, String.eqb_eq, windowMatches_iff. reflexivity.
  - intros r. unfold t'. rewrite filter_In, negb_true_iff. reflexivity.
Qed.

(** The example of the specification: offset 1, value ["data1"]. *)
Lemma RemoveFilteredPolicy_witness :
  let alice := mkCasbinRule "1" "p" "alice" "data1" "read" "" "" "" in
  let bob := mkCasbinRule "2" "p" "bob" "data2" "write" "" "" "" in
  let role := mkCasbinRule "3" "g" "alice" "data1" "" "" "" "" in
  windowInRange 1 ["data1"]
  /\ RemoveFilteredPolicy "p" "p" 1 ["data1"] (quiet [alice; bob; role])
     = (Ok tt, quiet [bob; role]).
Proof.
  intros alice bob role.
  assert (Hrange : windowInRange 1 ["data1"]).
  { intros [|[|i]] v Hi Hv; simpl in Hi; try discriminate. lia. }
  split; [exact Hrange|].
  exact (proj1 (RemoveFilteredPolicy_deletes_matching "p" "p" 1 ["data1"]
                  [alice; bob; role] Hrange)).
Defined.

(** ** The predicate of [UpdateFilteredPolicies] *)

Lemma query_loop (values : list string) (n : nat) (q : Where) :
  fold_left (fun q i => (q ++ [(ColV (Z.of_nat i), nth i values "")])%list)
            (seq 0 n) q
  = (q ++ map (fun i => (ColV (Z.of_nat i), nth i values "")) (seq 0 n))%list.
Proof.
  induction n as [|n IH].
  - simpl. now rewrite app_nil_r.
  - rewrite seq_S, fold_left_app, IH, map_app. simpl.
    now rewrite app_assoc.
Qed.

Lemma queryString_conds (c : CasbinRule) :
  queryString c
  = ((ColPtype, Ptype c)
     :: map (fun i => (ColV (Z.of_nat i), nth i (getValues c) ""))
            (upTo (getLastNonEmptyIndex (getValues c))))%list.
Proof. unfold queryString, upTo. now rewrite query_loop. Qed.

(** [queryString] only names columns of the table. *)
Lemma queryString_exist (c : CasbinRule) :
  forallb (fun cond => column_exists (fst cond)) (queryString c) = true.
Proof.
  rewrite queryString_conds. cbn [forallb fst]. rewrite andb_true_l.
  apply forallb_forall. intros cond Hin.
  apply in_map_iff in Hin as (i & <- & Hi). cbn [fst].
  apply column_exists_iff. unfold upTo in Hi. apply in_seq in Hi.
  pose proof (upTo_bound (getValues c)) as Hb.
  change (List.length (getValues c)) with 6 in Hb. lia.
Qed.


(** The row built from the window: column k receives the value of the
    window at k, the empty string outside it. *)
Lemma filterLine_values (ptype : string) (fieldIndex : Z)
      (fieldValues : list string) :
  Ptype (filterLine ptype fieldIndex fieldValues) = ptype
  /\ getValues (filterLine ptype fieldIndex fieldValues)
     = map (windowValue fieldIndex fieldValues) [0; 1; 2; 3; 4; 5]%Z.
Proof.
  unfold filterLine, windowSet, windowValue. cbn [map].
  destruct (andb (Z.leb fieldIndex 0) _);
  destruct (andb (Z.leb fieldIndex 1) _);
  destruct (andb (Z.leb fieldIndex 2) _);
  destruct (andb (Z.leb fieldIndex 3) _);
  destruct (andb (Z.leb fieldIndex 4) _);
  destruct (andb (Z.leb fieldIndex 5) _); split; reflexivity.
Qed.


Lemma exec_delete_query (c : CasbinRule) (t : Table) :
  exec_stmt (DeleteWhere (queryString c)) t
  = Some (deleteMatching (queryString c) t).
Proof. cbn [exec_stmt]. now rewrite queryString_exist. Qed.

(** The loop of [UpdateFilteredPolicies] with a store that does not fail:
    for every new row, the delete by predicate, then the insert. *)
Lemma replace_loop (line : CasbinRule) (newP : list CasbinRule) (c p : Table) :
  forEach (fun newLine =>
             tx_Exec (DeleteWhere (queryString line)) ;;;
             tx_Exec (InsertIgnore newLine)) newP (mkWorld c (Some p) [])
  = (Ok tt,
     mkWorld c
       (Some (fold_left
                (fun t nl => insertIgnore nl (deleteMatching (queryString line) t))
                newP p)) []).
Proof.
  revert p; induction newP as [|nl newP IH]; intros p; [reflexivity|].
  cbn [forEach fold_left]. unfold bind.
  rewrite (tx_Exec_run _ _ _ _ _ (exec_delete_query line p)).
  rewrite (tx_Exec_run _ _ _ _ _ (exec_insert nl _)).
  apply IH.
Qed.

Section FilteredUpdateFacts.

Variable Checksum : Z -> list byte -> list byte.

Lemma UpdateFilteredPolicies_quiet
      (sec ptype : string) (newPolicies : list (list string))
      (fieldIndex : Z) (fieldValues : list string) (t : Table) :
  UpdateFilteredPolicies Checksum sec ptype newPolicies fieldIndex fieldValues
                         (quiet t)
  = (Ok [],
     quiet (fold_left
              (fun t nl =>
                 insertIgnore nl
                   (deleteMatching
                      (queryString (filterLine ptype fieldIndex fieldValues)) t))
              (map (savePolicyLine Checksum ptype) newPolicies) t)).
Proof.
  unfold UpdateFilteredPolicies, quiet. unfold bind at 1.
  change (db_Begin (mkWorld t None [])) with (Ok tt, mkWorld t (Some t) []).
  cbv beta iota. unfold deferRollback. unfold bind at 1.
  rewrite replace_loop. reflexivity.
Qed.


(** C9. Whenever [UpdateFilteredPolicies] succeeds, the list of previous
    rules it returns is empty. *)
Theorem UpdateFilteredPolicies_returns_no_old_rules
        (sec ptype : string) (newPolicies : list (list string))
        (fieldIndex : Z) (fieldValues : list string)
        (w w' : World) (oldPolicies : list (list string))
        (Hok : UpdateFilteredPolicies Checksum sec ptype newPolicies
                                      fieldIndex fieldValues w
               = (Ok oldPolicies, w')) :
  oldPolicies = [].
Proof.
  unfold UpdateFilteredPolicies, bind, deferRollback, ret in Hok.
  destruct (db_Begin w) as [[[]|e|] w1]; try discriminate.
  destruct (forEach _ _ w1) as [[[]|e|] w2]; try discriminate.
  destruct (tx_Commit w2) as [[[]|e|] w3]; try discriminate.
  cbn in Hok. now injection Hok as <- _.
Qed.

End FilteredUpdateFacts.


(** A successful filtered update whose delete step removes a row: the
    returned list is empty all the same. *)
Lemma UpdateFilteredPolicies_returns_no_old_rules_witness :
  let old := savePolicyLine sampleChecksum "p" ["alice"; "data1"; "read"] in
  let new := savePolicyLine sampleChecksum "p" ["alice"; "data1"; "write"] in
  exists oldPolicies,
    UpdateFilteredPolicies sampleChecksum "p" "p" [["alice"; "data1"; "write"]]
                           0 ["alice"] (quiet [old])
    = (Ok oldPolicies, quiet [new])
    /\ oldPolicies = [].
Proof.
  intros old new.
  assert (Hrun : UpdateFilteredPolicies sampleChecksum "p" "p"
                   [["alice"; "data1"; "write"]] 0 ["alice"] (quiet [old])
                 = (Ok [], quiet [new])).
  { vm_compute. reflexivity. }
  exists []. split; [exact Hrun|].
  exact (UpdateFilteredPolicies_returns_no_old_rules sampleChecksum "p" "p"
           [["alice"; "data1"; "write"]] 0 ["alice"] (quiet [old])
           (quiet [new]) [] Hrun).
Defined.

(** ** Identifiers and row identity *)

Lemma trim_idem (l : list string) :
  trimTrailingEmpty (trimTrailingEmpty l) = trimTrailingEmpty l.
Proof.
  destruct (trim_prefix l) as (k & Hk).
  rewrite Hk at 2. now rewrite trim_app_repeat.
Qed.

Section IdentityFacts.

Variable Checksum : Z -> list byte -> list byte.

(** A row written by [savePolicyLine] from a rule of at most six values
    without trailing empty values carries the identifier of its content. *)
Lemma savePolicyLine_identified (ptype : string) (rule : list string) :
  List.length rule <= 6 -> trimTrailingEmpty rule = rule ->
  rowIdentified Checksum (savePolicyLine Checksum ptype rule).
Proof.
  intros Hlen Htrim. unfold rowIdentified.
  rewrite savePolicyLine_ID, savePolicyLine_Ptype, savePolicyLine_values.
  rewrite firstn_all2 by lia. unfold sixSlots.
  now rewrite trim_app_repeat, Htrim.
Qed.

(** The insert, the deletes and the delete-and-insert of a filtered update
    keep every row identified. *)
Lemma insertIgnore_identified (line : CasbinRule) (t : Table) :
  rowIdentified Checksum line ->
  Forall (rowIdentified Checksum) t ->
  Forall (rowIdentified Checksum) (insertIgnore line t).
Proof.
  intros Hl Ht. unfold insertIgnore. destruct (has_id (ID line) t); [exact Ht|].
  apply Forall_app. split; [exact Ht|]. now constructor.
Qed.

Lemma filter_identified (f : CasbinRule -> bool) (t : Table) :
  Forall (rowIdentified Checksum) t ->
  Forall (rowIdentified Checksum) (filter f t).
Proof.
  intros Ht. apply Forall_forall. intros r Hr. apply filter_In in Hr as (Hr & _).
  revert r Hr. now apply Forall_forall.
Qed.

Lemma AddPolicy_identified (sec ptype : string) (rule : list string) (t : Table) :
  List.length rule <= 6 -> trimTrailingEmpty rule = rule ->
  Forall (rowIdentified Checksum) t ->
  exists t', AddPolicy Checksum sec ptype rule (quiet t) = (Ok tt, quiet t')
             /\ Forall (rowIdentified Checksum) t'.
Proof.
  intros Hlen Htrim Ht. eexists. split; [apply AddPolicy_quiet|].
  apply insertIgnore_identified; [now apply savePolicyLine_identified | exact Ht].
Qed.

Lemma UpdateFilteredPolicies_identified
      (sec ptype : string) (newPolicies : list (list string))
      (fieldIndex : Z) (fieldValues : list string) (t : Table) :
  Forall (fun rule => List.length rule <= 6 /\ trimTrailingEmpty rule = rule)
         newPolicies ->
  Forall (rowIdentified Checksum) t ->
  exists t',
    UpdateFilteredPolicies Checksum sec ptype newPolicies fieldIndex fieldValues
                           (quiet t) = (Ok [], quiet t')
    /\ Forall (rowIdentified Checksum) t'.
Proof.
  intros Hnew Ht. eexists. split; [apply UpdateFilteredPolicies_quiet|].
  revert t Ht. induction Hnew as [|rule rules (Hlen & Htrim) _ IH]; intros t Ht.
  - exact Ht.
  - cbn [map fold_left]. apply IH. apply insertIgnore_identified.
    + now apply savePolicyLine_identified.
    + now apply filter_identified.
Qed.

(** C4, on [UpdatePolicy]. The UPDATE rewrites ptype and v0..v5 of the row
    found by the old identifier and leaves its id column as it is: the row
    keeps the identifier of the old rule while it holds the new rule.
    When the two identifiers differ, the row is no longer found by the
    identifier of its own content: [RemovePolicy] of the new rule deletes
    nothing and [AddPolicy] of the new rule stores a second row with the
    same columns. *)
Theorem UpdatePolicy_keeps_the_old_identifier
        (sec ptype : string) (oldRule newRule : list string) :
  let oldLine := savePolicyLine Checksum ptype oldRule in
  let newLine := savePolicyLine Checksum ptype newRule in
  let stale := rewrite_columns newLine oldLine in
  UpdatePolicy Checksum sec ptype oldRule newRule (quiet [oldLine])
  = (Ok tt, quiet [stale])
  /\ ID stale = policyID Checksum ptype oldRule
  /\ Ptype stale = ptype
  /\ getValues stale = getValues newLine
  /\ (policyID Checksum ptype newRule <> policyID Checksum ptype oldRule ->
      (List.length newRule <= 6 -> trimTrailingEmpty newRule = newRule ->
       ~ rowIdentified Checksum stale)
      /\ RemovePolicy Checksum sec ptype newRule (quiet [stale])
         = (Ok tt, quiet [stale])
      /\ AddPolicy Checksum sec ptype newRule (quiet [stale])
         = (Ok tt, quiet [stale; newLine])).
Proof.
  intros oldLine newLine stale.
  split; [|split; [reflexivity|split; [apply savePolicyLine_Ptype|split;
                                       [reflexivity|]]]].
  - unfold UpdatePolicy, UpdatePolicies, quiet. unfold bind at 1.
    change (db_Begin (mkWorld [oldLine] None []))
      with (Ok tt, mkWorld [oldLine] (Some [oldLine]) []).
    cbv beta iota. unfold deferRollback, bind. cbn [updateLoop nth_error].
    unfold bind.
    rewrite (tx_Exec_run (UpdateById newLine (ID oldLine)) _ [oldLine] [stale]).
    + reflexivity.
    + cbn [exec_stmt map]. now rewrite String.eqb_refl.
  - intros Hids.
    assert (Hneq : String.eqb (ID stale) (ID newLine) = false).
    { apply String.eqb_neq. cbn [ID stale rewrite_columns].
      unfold oldLine, newLine. rewrite !savePolicyLine_ID. congruence. }
    split; [|split].
    + intros Hlen Htrim Hid. unfold rowIdentified in Hid.
      apply Hids. symmetry.
      change (ID stale) with (policyID Checksum ptype oldRule) in Hid.
      rewrite Hid. change (Ptype stale) with (Ptype newLine).
      change (getValues stale) with (getValues newLine).
      unfold newLine. rewrite savePolicyLine_Ptype, savePolicyLine_values.
      rewrite firstn_all2 by lia. unfold sixSlots.
      now rewrite trim_app_repeat, Htrim.
    + unfold RemovePolicy. apply db_Exec_quiet.
      cbn [exec_stmt filter]. fold newLine. now rewrite Hneq.
    + rewrite AddPolicy_quiet. fold newLine. unfold insertIgnore.
      cbn [has_id existsb]. now rewrite Hneq.
Qed.

End IdentityFacts.

(** The update of the specification's own example, under a hash that
    tells the two contents apart: the row holds (alice, data1, write) under
    the identifier of (alice, data1, read). *)
Lemma UpdatePolicy_breaks_row_identity :
  let old := ["alice"; "data1"; "read"] in
  let new := ["alice"; "data1"; "write"] in
  let t := committed (snd (UpdatePolicy sampleChecksum "p" "p" old new
                             (quiet [savePolicyLine sampleChecksum "p" old]))) in
  Forall (rowIdentified sampleChecksum) [savePolicyLine sampleChecksum "p" old]
  /\ t = [mkCasbinRule (policyID sampleChecksum "p" old)
                       "p" "alice" "data1" "write" "" "" ""]
  /\ ~ Forall (rowIdentified sampleChecksum) t.
Proof.
  intros old new t. split; [|split].
  - constructor; [|constructor].
    apply savePolicyLine_identified; [simpl; lia | reflexivity].
  - vm_compute. reflexivity.
  - intros H. inversion H as [|r l Hr _]; subst.
    vm_compute in Hr. discriminate.
Qed.

(** ** Rules of more than six values *)

Section LongRules.

Variable Checksum : Z -> list byte -> list byte.


End LongRules.



(** ** Runs on concrete inputs *)

Example String_interior :
  String_ (mkCasbinRule "x" "p" "alice" "" "read" "" "" "") = "p, alice, , read".
Proof. reflexivity. Qed.

Example String_all_empty :
  String_ (mkCasbinRule "x" "p" "" "" "" "" "" "") = "p".
Proof. reflexivity. Qed.

Example toStringPolicy_interior :
  toStringPolicy (mkCasbinRule "x" "p" "alice" "" "read" "" "" "")
  = ["p"; "alice"; ""; "read"].
Proof. reflexivity. Qed.

Example SprintfHex_sample :
  Go.SprintfHex [x00; x0a; xff; x7b] = "000aff7b".
Proof. reflexivity. Qed.

(** A save interrupted after the delete and the first insert: the table
    is the one before the save. *)
Example SavePolicy_interrupted :
  let before := [savePolicyLine sampleChecksum "p" ["carol"; "data3"; "read"]] in
  let model := [("p", [("p", [["alice"; "data1"; "read"];
                              ["bob"; "data2"; "write"]])]);
                ("g", [("g", [["alice"; "admin"]])])] in
  SavePolicy sampleChecksum model (mkWorld before None [false; false; false; true])
  = (Err ErrStorage, mkWorld before None []).
Proof. vm_compute. reflexivity. Qed.

(** The same save with a store that does not fail; the rule given twice
    is stored once. *)
Example SavePolicy_deduplicates :
  let before := [savePolicyLine sampleChecksum "p" ["carol"; "data3"; "read"]] in
  let model := [("p", [("p", [["alice"; "data1"; "read"];
                              ["alice"; "data1"; "read"]])]);
                ("g", [("g", [["alice"; "admin"]])])] in
  SavePolicy sampleChecksum model (quiet before)
  = (Ok tt, quiet [savePolicyLine sampleChecksum "p" ["alice"; "data1"; "read"];
                   savePolicyLine sampleChecksum "g" ["alice"; "admin"]]).
Proof. vm_compute. reflexivity. Qed.

(** A window that names a column the table does not have makes the
    statement fail; nothing is deleted. *)
Example RemoveFilteredPolicy_out_of_range :
  let alice := mkCasbinRule "1" "p" "alice" "data1" "read" "" "" "" in
  RemoveFilteredPolicy "p" "p" 6 ["x"] (quiet [alice])
  = (Err ErrStatement, quiet [alice]).
Proof. reflexivity. Qed.

(** * Further properties of the code *)

(** ** The codec on arbitrary rows and slices *)

(** [getLastNonEmptyIndex] on any slice: it returns -1 exactly when every
    value is empty (an empty slice included), and k >= 0 exactly when
    values[k] is the last non-empty value. *)
Theorem getLastNonEmptyIndex_characterized (values : list string) (k : Z) :
  getLastNonEmptyIndex values = k <->
  (k = (-1)%Z /\ forall v, In v values -> v = "")
  \/ ((0 <= k < Z.of_nat (List.length values))%Z
      /\ nth (Z.to_nat k) values "" <> ""
      /\ forall j, Z.to_nat k < j -> nth j values "" = "").
Proof.
  destruct (getLastNonEmptyIndex_spec values) as (Hb & Hnz & Hz).
  set (last := getLastNonEmptyIndex values) in *.
  split.
  - intros <-. destruct (Z_lt_le_dec last 0) as [Hneg|Hpos].
    + left. split; [lia|]. intros v Hv.
      destruct (In_nth values v "" Hv) as (j & Hj & <-). apply Hz. lia.
    + right. split; [lia|]. split; [now apply Hnz|].
      intros j Hj. apply Hz. lia.
  - intros [(-> & Hall) | (Hk & Hnk & Hafter)].
    + destruct (Z_lt_le_dec last 0) as [Hneg|Hpos]; [lia|].
      exfalso. apply (Hnz Hpos). apply Hall, nth_In. lia.
    + destruct (Z.lt_trichotomy last k) as [Hlt|[Heq|Hgt]]; [|exact Heq|].
      * exfalso. apply Hnk. apply Hz. lia.
      * exfalso. apply Hnz; [lia|]. apply Hafter. lia.
Qed.

(** The line of a row is the ", "-join of its rule type and its values up
    to the last non-empty one.  When the rule type is not empty this is
    the join of what [toStringPolicy] returns; when it is empty,
    [toStringPolicy] drops it while the line still starts with the
    separator. *)
Theorem String_joins_toStringPolicy (r : CasbinRule) :
  String_ r = Go.Join (Ptype r :: trimTrailingEmpty (getValues r)) ", "
  /\ (Ptype r <> "" -> String_ r = Go.Join (toStringPolicy r) ", ")
  /\ (Ptype r = "" ->
      toStringPolicy r = trimTrailingEmpty (getValues r)
      /\ String_ r = separated ", " (toStringPolicy r)).
Proof.
  assert (Hline : String_ r
                  = Go.Join (Ptype r :: trimTrailingEmpty (getValues r)) ", ").
  { rewrite Join_cons. apply String_is_separated. }
  split; [exact Hline|]. split.
  - intros Hp. rewrite toStringPolicy_is_trim.
    apply String.eqb_neq in Hp. now rewrite Hp.
  - intros Hp. rewrite toStringPolicy_is_trim, String_is_separated, Hp.
    split; reflexivity.
Qed.

Lemma trim_length (l : list string) :
  List.length (trimTrailingEmpty l) <= List.length l.
Proof.
  destruct (trim_prefix l) as (k & Hk). rewrite Hk at 2.
  rewrite length_app. lia.
Qed.

(** Two rows with the same identifier, rule type and values are equal. *)
Lemma row_ext (a b : CasbinRule) :
  ID a = ID b -> Ptype a = Ptype b -> getValues a = getValues b -> a = b.
Proof.
  destruct a, b. unfold getValues. cbn.
  intros -> -> Hv. now injection Hv as -> -> -> -> -> ->.
Qed.

Section DecodeEncode.

Variable Checksum : Z -> list byte -> list byte.

(** Decoding a row with the trailing-trim rule and encoding the result
    again gives the same rule type and the same six columns; the whole
    row, identifier included, comes back when its identifier is the one
    of its content. *)
Theorem savePolicyLine_of_decoded_row (r : CasbinRule) :
  let back := savePolicyLine Checksum (Ptype r)
                             (trimTrailingEmpty (getValues r)) in
  Ptype back = Ptype r
  /\ getValues back = getValues r
  /\ (rowIdentified Checksum r <-> back = r).
Proof.
  intros back.
  assert (Hp : Ptype back = Ptype r) by apply savePolicyLine_Ptype.
  assert (Hv : getValues back = getValues r).
  { unfold back. rewrite savePolicyLine_values.
    pose proof (trim_length (getValues r)) as Hlen.
    change (List.length (getValues r)) with 6 in Hlen.
    rewrite firstn_all2 by lia. unfold sixSlots.
    destruct (trim_prefix (getValues r)) as (k & Hk).
    assert (Hk6 : k = 6 - List.length (trimTrailingEmpty (getValues r))).
    { apply (f_equal (@List.length string)) in Hk.
      rewrite length_app, repeat_length in Hk.
      change (List.length (getValues r)) with 6 in Hk. lia. }
    rewrite <- Hk6. now symmetry. }
  split; [exact Hp|]. split; [exact Hv|].
  assert (Hid : ID back = policyID Checksum (Ptype r)
                                   (trimTrailingEmpty (getValues r)))
    by reflexivity.
  split.
  - intros Hr. unfold rowIdentified in Hr.
    apply row_ext; [now rewrite Hid, Hr | exact Hp | exact Hv].
  - intros Heq. unfold rowIdentified. rewrite <- Heq at 1. exact Hid.
Qed.

End DecodeEncode.

(** ** What the identifier tells apart *)

Lemma hex_pair_injective (b1 b2 : byte) :
  Go.hexDigit (N.div (Byte.to_N b1) 16) = Go.hexDigit (N.div (Byte.to_N b2) 16) ->
  Go.hexDigit (N.modulo (Byte.to_N b1) 16)
  = Go.hexDigit (N.modulo (Byte.to_N b2) 16) ->
  b1 = b2.
Proof.
  pose (val := fun c : ascii =>
                 let n := N_of_ascii c in
                 if N.ltb n 58 then N.sub n 48 else N.sub n 87).
  assert (Hback : forall b,
             Byte.of_N (16 * val (Go.hexDigit (N.div (Byte.to_N b) 16))
                        + val (Go.hexDigit (N.modulo (Byte.to_N b) 16)))
             = Some b).
  { intros b. destruct b; vm_compute; reflexivity. }
  intros H1 H2. pose proof (Hback b1) as E1. pose proof (Hback b2) as E2.
  rewrite H1, H2 in E1. rewrite E1 in E2. now injection E2.
Qed.

Lemma SprintfHex_injective (a b : list byte) :
  Go.SprintfHex a = Go.SprintfHex b -> a = b.
Proof.
  revert b; induction a as [|x a IH]; intros [|y b] H;
    try reflexivity; try discriminate.
  cbn [Go.SprintfHex] in H. injection H as H1 H2 H3.
  f_equal; [now apply hex_pair_injective | now apply IH].
Qed.

Lemma bytes_injective (s1 s2 : string) : Go.bytes s1 = Go.bytes s2 -> s1 = s2.
Proof.
  unfold Go.bytes. intros H.
  rewrite <- (string_of_list_byte_of_string s1),
          <- (string_of_list_byte_of_string s2).
  now rewrite H.
Qed.

Lemma comma_free_split (a b s s' : string) :
  noComma a = true -> noComma b = true ->
  a ++ "," ++ s = b ++ "," ++ s' -> a = b /\ s = s'.
Proof.
  revert b; induction a as [|c a IH]; intros [|d b] Ha Hb H.
  - simpl in H. injection H as H. now split.
  - simpl in H, Hb. injection H as Hc _. subst d. discriminate.
  - simpl in H, Ha. injection H as Hc _. subst c. discriminate.
  - simpl in H, Ha, Hb. injection H as Hc H. subst d.
    apply andb_true_iff in Ha as (_ & Ha). apply andb_true_iff in Hb as (_ & Hb).
    destruct (IH b Ha Hb H) as (-> & ->). now split.
Qed.

Lemma comma_free_end (a b s : string) :
  noComma a = true -> noComma b = true -> a = b ++ "," ++ s -> False.
Proof.
  revert b; induction a as [|c a IH]; intros [|d b] Ha Hb H.
  - discriminate.
  - discriminate.
  - simpl in H, Ha. injection H as Hc _. subst c. discriminate.
  - simpl in H, Ha, Hb. injection H as Hc H. subst d.
    apply andb_true_iff in Ha as (_ & Ha). apply andb_true_iff in Hb as (_ & Hb).
    exact (IH b Ha Hb H).
Qed.

Lemma separated_injective (t1 t2 : string) (r1 r2 : list string) :
  noComma t1 = true -> noComma t2 = true ->
  Forall (fun v => noComma v = true) r1 ->
  Forall (fun v => noComma v = true) r2 ->
  t1 ++ separated "," r1 = t2 ++ separated "," r2 -> t1 = t2 /\ r1 = r2.
Proof.
  intros H1 H2 Hr1. revert t1 t2 r2 H1 H2.
  induction Hr1 as [|v1 r1 Hv1 _ IH]; intros t1 t2 r2 H1 H2 Hr2 H.
  - destruct Hr2 as [|v2 r2 Hv2 Hr2].
    + simpl in H. rewrite !append_nil_r in H. now split.
    + exfalso. simpl in H. rewrite append_nil_r in H.
      exact (comma_free_end t1 t2 _ H1 H2 H).
  - destruct Hr2 as [|v2 r2 Hv2 Hr2].
    + exfalso. simpl in H. rewrite append_nil_r in H. symmetry in H.
      exact (comma_free_end t2 t1 _ H2 H1 H).
    + cbn [separated] in H.
      destruct (comma_free_split t1 t2 _ _ H1 H2 H) as (-> & H').
      destruct (IH v1 v2 r2 Hv1 Hv2 Hr2 H') as (-> & ->). now split.
Qed.

(** When neither the rule types nor the values contain a comma, the bytes
    hashed by [policyID] determine the rule type and the whole list of
    values, trailing empty values included. *)
Theorem policyData_injective_without_commas
        (t1 t2 : string) (r1 r2 : list string)
        (H1 : noComma t1 = true) (H2 : noComma t2 = true)
        (Hr1 : Forall (fun v => noComma v = true) r1)
        (Hr2 : Forall (fun v => noComma v = true) r2)
        (Hdata : policyData t1 r1 = policyData t2 r2) :
  t1 = t2 /\ r1 = r2.
Proof.
  rewrite !policyData_separated in Hdata.
  now apply separated_injective.
Qed.

Lemma policyData_injective_witness :
  policyData "p" ["alice"; ""; "read"] = policyData "p" ["alice"; ""; "read"]
  /\ "p" = "p" /\ ["alice"; ""; "read"] = ["alice"; ""; "read"].
Proof.
  split; [reflexivity|].
  apply (policyData_injective_without_commas "p" "p"
           ["alice"; ""; "read"] ["alice"; ""; "read"]);
    try reflexivity; repeat constructor.
Defined.

Section IdentifierCollisions.

Variable Checksum : Z -> list byte -> list byte.

(** Two identifiers are equal exactly when the hash gives the same sum
    for the two comma-joined contents: the hexadecimal rendering and the
    conversion to bytes lose nothing. *)
Theorem policyID_equal_iff_sums_equal (t1 t2 : string) (r1 r2 : list string) :
  (policyID Checksum t1 r1 = policyID Checksum t2 r2 <->
   Checksum 0 (Go.bytes (policyData t1 r1))
   = Checksum 0 (Go.bytes (policyData t2 r2)))
  /\ (policyData t1 r1 = policyData t2 r2 ->
      policyID Checksum t1 r1 = policyID Checksum t2 r2)
  /\ (Go.bytes (policyData t1 r1) = Go.bytes (policyData t2 r2) <->
      policyData t1 r1 = policyData t2 r2).
Proof.
  split; [|split].
  - unfold policyID. split; [apply SprintfHex_injective | now intros ->].
  - unfold policyID. now intros ->.
  - split; [apply bytes_injective | now intros ->].
Qed.

End IdentifierCollisions.

(** ** No partial batch *)

Lemma tx_Exec_keeps (s : Stmt) : keepsCommitted (tx_Exec s).
Proof.
  intros [c p fs]. unfold tx_Exec.
  destruct fs as [|[|] fs]; cbn [next_fault faults pending committed];
    try reflexivity;
    (destruct p as [t|]; [destruct (exec_stmt s t)|]; reflexivity).
Qed.

Lemma ret_keeps {A} (a : A) : keepsCommitted (ret a).
Proof. intros w. reflexivity. Qed.

Lemma panic_keeps {A} : keepsCommitted (@panic A).
Proof. intros w. reflexivity. Qed.

Lemma bind_keeps {A B} (m : M A) (k : A -> M B) :
  keepsCommitted m -> (forall a, keepsCommitted (k a)) ->
  keepsCommitted (bind m k).
Proof.
  intros Hm Hk w. unfold bind. specialize (Hm w).
  destruct (m w) as [[a|e|] w1]; cbn [snd] in *; [|exact Hm..].
  now rewrite Hk.
Qed.

Lemma forEach_keeps {A} (f : A -> M unit) (l : list A) :
  (forall x, keepsCommitted (f x)) -> keepsCommitted (forEach f l).
Proof.
  intros Hf. induction l as [|x l IH]; [apply ret_keeps|].
  cbn [forEach]. apply bind_keeps; [apply Hf | intros _; exact IH].
Qed.

Lemma tx_Commit_failsSafe : failsSafe tx_Commit.
Proof.
  intros [c p fs]. unfold tx_Commit.
  destruct fs as [|[|] fs]; cbn [next_fault faults pending committed];
    destruct p; cbn; intros H; try reflexivity; discriminate.
Qed.

Lemma commit_then_ret_failsSafe {A} (a : A) : failsSafe (tx_Commit ;;; ret a).
Proof.
  intros w. unfold bind. pose proof (tx_Commit_failsSafe w) as H.
  destruct (tx_Commit w) as [[[]|e|] w1]; cbn in *;
    intros Hf; try discriminate; now apply H.
Qed.

Lemma db_Exec_failsSafe (s : Stmt) : failsSafe (db_Exec s).
Proof.
  intros [c p fs]. unfold db_Exec.
  destruct fs as [|[|] fs]; cbn [next_fault faults pending committed];
    try (intros _; reflexivity);
    (destruct (exec_stmt s c); cbn; intros H; [discriminate|reflexivity]).
Qed.

(** The shape of every batch operation: begin, a deferred rollback, a body
    of statements inside the transaction, then the commit. *)
Lemma transaction_failsSafe {A B} (body : M A) (commit : M B) :
  keepsCommitted body -> failsSafe commit ->
  failsSafe (db_Begin ;;; deferRollback (body ;;; commit)).
Proof.
  intros Hbody Hcommit [c p fs] Hfail.
  unfold bind at 1 in Hfail. unfold bind at 1.
  assert (Hstep : forall w1, committed w1 = c ->
            isOk (fst (deferRollback (body ;;; commit) w1)) = false ->
            committed (snd (deferRollback (body ;;; commit) w1)) = c).
  { intros w1 Hw1. unfold deferRollback, bind.
    pose proof (Hbody w1) as Hb.
    destruct (body w1) as [[a|e|] w2]; cbn [snd] in Hb; cbn;
      try (intros _; congruence).
    pose proof (Hcommit w2) as Hc.
    destruct (commit w2) as [r w3]. cbn in *. intros Hr. rewrite Hc by exact Hr.
    congruence. }
  destruct fs as [|[|] fs]; cbn in *.
  - now apply Hstep.
  - reflexivity.
  - now apply Hstep.
Qed.

Section BatchSafety.

Variable Checksum : Z -> list byte -> list byte.

Lemma updateLoop_keeps (ptype : string) (oldRules newRules : list (list string))
      (i : nat) :
  keepsCommitted (updateLoop Checksum ptype i oldRules newRules).
Proof.
  revert i; induction oldRules as [|oldRule rest IH]; intros i.
  - apply ret_keeps.
  - cbn [updateLoop]. destruct (nth_error newRules i) as [newRule|].
    + apply bind_keeps; [apply tx_Exec_keeps | intros _; apply IH].
    + apply panic_keeps.
Qed.

(** Whatever the store does (any schedule of failing calls, a rejected
    statement, a panic on a short [newRules]), an add, remove or update
    that does not return without error leaves the committed table exactly
    as it was: no batch is ever stored in part. *)
Theorem writes_fail_safe (sec ptype : string) :
  (forall rule, failsSafe (AddPolicy Checksum sec ptype rule))
  /\ (forall rules, failsSafe (AddPolicies Checksum sec ptype rules))
  /\ (forall rule, failsSafe (RemovePolicy Checksum sec ptype rule))
  /\ (forall rules, failsSafe (RemovePolicies Checksum sec ptype rules))
  /\ (forall fieldIndex fieldValues,
         failsSafe (RemoveFilteredPolicy sec ptype fieldIndex fieldValues))
  /\ (forall oldRule newRule,
         failsSafe (UpdatePolicy Checksum sec ptype oldRule newRule))
  /\ (forall oldRules newRules,
         failsSafe (UpdatePolicies Checksum sec ptype oldRules newRules))
  /\ (forall newPolicies fieldIndex fieldValues,
         failsSafe (UpdateFilteredPolicies Checksum sec ptype newPolicies
                                           fieldIndex fieldValues)).
Proof.
  assert (Hupd : forall oldRules newRules,
             failsSafe (UpdatePolicies Checksum sec ptype oldRules newRules)).
  { intros oldRules newRules. unfold UpdatePolicies.
    apply transaction_failsSafe;
      [apply updateLoop_keeps | apply tx_Commit_failsSafe]. }
  repeat split.
  - intros rule. apply db_Exec_failsSafe.
  - intros rules. unfold AddPolicies.
    apply transaction_failsSafe; [|apply tx_Commit_failsSafe].
    apply forEach_keeps. intros rule. apply tx_Exec_keeps.
  - intros rule. apply db_Exec_failsSafe.
  - intros rules. unfold RemovePolicies.
    apply transaction_failsSafe; [|apply tx_Commit_failsSafe].
    apply forEach_keeps. intros rule. apply tx_Exec_keeps.
  - intros fieldIndex fieldValues. apply db_Exec_failsSafe.
  - intros oldRule newRule. apply Hupd.
  - exact Hupd.
  - intros newPolicies fieldIndex fieldValues. unfold UpdateFilteredPolicies.
    apply transaction_failsSafe; [|apply commit_then_ret_failsSafe].
    apply forEach_keeps. intros newLine.
    apply bind_keeps; [apply tx_Exec_keeps | intros _; apply tx_Exec_keeps].
Qed.

End BatchSafety.

(** A batch of three adds whose third insert fails: nothing is stored. *)
Example AddPolicies_interrupted :
  AddPolicies sampleChecksum "p" "p"
              [["alice"; "data1"; "read"]; ["bob"; "data2"; "write"];
               ["carol"; "data3"; "read"]]
              (mkWorld [] None [false; false; false; true])
  = (Err ErrStorage, mkWorld [] None []).
Proof. vm_compute. reflexivity. Qed.

(** ** Batches with a store that does not fail *)

Lemma quiet_loop {A} (f : A -> Stmt) (g : A -> Table -> Table)
      (xs : list A) (c p : Table) :
  (forall x t, exec_stmt (f x) t = Some (g x t)) ->
  forEach (fun x => tx_Exec (f x)) xs (mkWorld c (Some p) [])
  = (Ok tt, mkWorld c (Some (fold_left (fun t x => g x t) xs p)) []).
Proof.
  intros Hfg. revert p; induction xs as [|x xs IH]; intros p; [reflexivity|].
  cbn [forEach fold_left]. unfold bind.
  rewrite (tx_Exec_run _ _ _ _ _ (Hfg x p)). apply IH.
Qed.

Lemma quiet_transaction {A} (body : M A) (a : A) (t p : Table) :
  body (mkWorld t (Some t) []) = (Ok a, mkWorld t (Some p) []) ->
  (db_Begin ;;; deferRollback (body ;;; tx_Commit)) (quiet t)
  = (Ok tt, quiet p).
Proof.
  intros Hbody. unfold quiet. unfold bind at 1.
  change (db_Begin (mkWorld t None [])) with (Ok tt, mkWorld t (Some t) []).
  cbv beta iota. unfold deferRollback, bind. now rewrite Hbody.
Qed.

Lemma deleteID_absent (id : string) (t : Table) :
  has_id id t = false -> deleteID id t = t.
Proof.
  unfold deleteID, has_id. induction t as [|r t IH]; [reflexivity|].
  cbn [existsb filter]. intros H. apply orb_false_iff in H as (H1 & H2).
  rewrite H1. cbn [negb]. now rewrite IH.
Qed.

Lemma deleteID_insertIgnore (line : CasbinRule) (t : Table) :
  deleteID (ID line) (insertIgnore line t) = deleteID (ID line) t.
Proof.
  unfold insertIgnore. destruct (has_id (ID line) t); [reflexivity|].
  unfold deleteID. rewrite filter_app. cbn [filter].
  rewrite String.eqb_refl. cbn [negb]. apply app_nil_r.
Qed.

(** Deleting identifiers one after the other keeps the rows whose
    identifier is none of them. *)
Lemma delete_all_filter (ids : list string) (t : Table) :
  fold_left (fun t id => deleteID id t) ids t
  = filter (fun r => negb (existsb (String.eqb (ID r)) ids)) t.
Proof.
  revert t; induction ids as [|id ids IH]; intros t.
  - cbn. induction t as [|r t IHt]; [reflexivity|]. cbn. now rewrite <- IHt.
  - cbn [fold_left]. rewrite IH. unfold deleteID.
    induction t as [|r t IHt]; [reflexivity|].
    cbn [filter existsb]. destruct (String.eqb (ID r) id); cbn [negb orb].
    + exact IHt.
    + cbn [filter]. destruct (existsb (String.eqb (ID r)) ids); cbn [negb].
      * exact IHt.
      * now rewrite IHt.
Qed.

Lemma fold_left_through_map {A B C} (f : A -> C -> A) (g : B -> C)
      (l : list B) (a : A) :
  fold_left f (map g l) a = fold_left (fun a x => f a (g x)) l a.
Proof.
  revert a; induction l as [|x l IH]; intros a; [reflexivity|]. apply IH.
Qed.

Lemma forEach_ext {A} (f g : A -> M unit) (l : list A) (w : World) :
  (forall x w, f x w = g x w) -> forEach f l w = forEach g l w.
Proof.
  intros H. revert w; induction l as [|x l IH]; intros w; [reflexivity|].
  cbn [forEach]. unfold bind. rewrite H.
  destruct (g x w) as [[[]|e|] w1]; [apply IH | reflexivity..].
Qed.

Section QuietBatches.

Variable Checksum : Z -> list byte -> list byte.

(** With a store that does not fail, [AddPolicies] stores what [AddPolicy]
    called for each rule in order stores: the rules inserted one after the
    other, a rule whose identifier is already there being skipped; the
    primary key stays unique and every rule of the batch has exactly one
    row with its identifier. *)
Theorem AddPolicies_is_AddPolicy_in_order
        (sec ptype : string) (rules : list (list string)) (t : Table) :
  let t' := fold_left (fun t l => insertIgnore l t)
                      (map (savePolicyLine Checksum ptype) rules) t in
  AddPolicies Checksum sec ptype rules (quiet t) = (Ok tt, quiet t')
  /\ forEach (AddPolicy Checksum sec ptype) rules (quiet t) = (Ok tt, quiet t')
  /\ (uniqueIDs t ->
      uniqueIDs t'
      /\ forall rule, In rule rules ->
                      countID (policyID Checksum ptype rule) t' = 1).
Proof.
  intros t'. split; [|split].
  - unfold AddPolicies. apply quiet_transaction with (a := tt).
    rewrite (quiet_loop (fun rule => InsertIgnore (savePolicyLine Checksum ptype rule))
                        (fun rule t => insertIgnore (savePolicyLine Checksum ptype rule) t)).
    + unfold t'. now rewrite fold_left_through_map.
    + intros rule p. apply exec_insert.
  - subst t'. revert t. induction rules as [|rule rules IH]; intros t; [reflexivity|].
    cbn [forEach map fold_left]. unfold bind. rewrite AddPolicy_quiet. apply IH.
  - intros Hpk.
    assert (Huniq : uniqueIDs t') by (now apply insert_all_unique).
    split; [exact Huniq|]. intros rule Hin.
    apply countID_present; [exact Huniq|].
    rewrite <- (savePolicyLine_ID Checksum).
    apply insert_all_has_id. now apply in_map.
Qed.

(** With a store that does not fail, [RemovePolicies] keeps exactly the
    rows whose identifier is the identifier of none of the given rules,
    in place, and so does [RemovePolicy] called for each rule in order. *)
Theorem RemovePolicies_keeps_the_other_rows
        (sec ptype : string) (rules : list (list string)) (t : Table) :
  let ids := map (policyID Checksum ptype) rules in
  let t' := filter (fun r => negb (existsb (String.eqb (ID r)) ids)) t in
  RemovePolicies Checksum sec ptype rules (quiet t) = (Ok tt, quiet t')
  /\ forEach (RemovePolicy Checksum sec ptype) rules (quiet t) = (Ok tt, quiet t').
Proof.
  intros ids t'.
  assert (Ht' : t' = fold_left (fun t rule => deleteID (policyID Checksum ptype rule) t)
                               rules t).
  { unfold t', ids. rewrite <- delete_all_filter.
    now rewrite fold_left_through_map. }
  split.
  - unfold RemovePolicies. apply quiet_transaction with (a := tt).
    rewrite (quiet_loop
               (fun rule => DeleteById (ID (savePolicyLine Checksum ptype rule)))
               (fun rule t => deleteID (policyID Checksum ptype rule) t)).
    + now rewrite Ht'.
    + reflexivity.
  - rewrite Ht'. clear. revert t.
    induction rules as [|rule rules IH]; intros t; [reflexivity|].
    cbn [forEach fold_left]. unfold bind.
    unfold RemovePolicy at 1.
    rewrite (db_Exec_quiet
               (DeleteById (ID (savePolicyLine Checksum ptype rule)))
               t (deleteID (policyID Checksum ptype rule) t) eq_refl).
    apply IH.
Qed.

(** Adding a rule and then removing it gives the table without any row of
    that identifier: the table before the add when the identifier was not
    stored.  Removing a rule that is not stored succeeds and changes
    nothing. *)
Theorem RemovePolicy_after_AddPolicy
        (sec ptype : string) (rule : list string) (t : Table) :
  let id := policyID Checksum ptype rule in
  (AddPolicy Checksum sec ptype rule ;;; RemovePolicy Checksum sec ptype rule)
    (quiet t)
  = (Ok tt, quiet (deleteID id t))
  /\ (has_id id t = false ->
      deleteID id t = t
      /\ RemovePolicy Checksum sec ptype rule (quiet t) = (Ok tt, quiet t)).
Proof.
  intros id. split.
  - unfold bind. rewrite AddPolicy_quiet. unfold RemovePolicy.
    set (line := savePolicyLine Checksum ptype rule).
    rewrite (db_Exec_quiet (DeleteById (ID line)) (insertIgnore line t)
                           (deleteID (ID line) (insertIgnore line t)) eq_refl).
    now rewrite deleteID_insertIgnore.
  - intros Hfresh. split; [now apply deleteID_absent|].
    unfold RemovePolicy.
    rewrite (db_Exec_quiet
               (DeleteById (ID (savePolicyLine Checksum ptype rule)))
               t (deleteID id t) eq_refl).
    now rewrite deleteID_absent.
Qed.

End QuietBatches.

(** ** [UpdatePolicies] *)

Lemma skipn_nth_error {A} (l : list A) (i : nat) (x : A) :
  nth_error l i = Some x -> skipn i l = x :: skipn (S i) l.
Proof.
  revert i; induction l as [|y l IH]; intros [|i] H; try discriminate.
  - now injection H as ->.
  - cbn [skipn]. now apply IH.
Qed.

Lemma updateID_ids (newLine : CasbinRule) (id : string) (t : Table) :
  map ID (updateID newLine id t) = map ID t.
Proof.
  unfold updateID. rewrite map_map. apply map_ext.
  intros r. now destruct (String.eqb (ID r) id).
Qed.

Lemma updateID_absent (newLine : CasbinRule) (id : string) (t : Table) :
  has_id id t = false -> updateID newLine id t = t.
Proof.
  unfold updateID, has_id. induction t as [|r t IH]; [reflexivity|].
  cbn [existsb map]. intros H. apply orb_false_iff in H as (H1 & H2).
  rewrite H1. now rewrite IH.
Qed.

Lemma exec_update (newLine : CasbinRule) (id : string) (t : Table) :
  exec_stmt (UpdateById newLine id) t = Some (updateID newLine id t).
Proof. reflexivity. Qed.

Section UpdateFacts.

Variable Checksum : Z -> list byte -> list byte.

Lemma updateAll_ids (ptype : string)
      (pairs : list (list string * list string)) (t : Table) :
  map ID (updateAll Checksum ptype pairs t) = map ID t.
Proof.
  unfold updateAll. revert t; induction pairs as [|pair pairs IH]; intros t.
  - reflexivity.
  - cbn [fold_left]. rewrite IH. apply updateID_ids.
Qed.

Lemma updateLoop_quiet (ptype : string) (oldRules newRules : list (list string))
      (i : nat) (c p : Table) :
  i + List.length oldRules <= List.length newRules ->
  updateLoop Checksum ptype i oldRules newRules (mkWorld c (Some p) [])
  = (Ok tt,
     mkWorld c (Some (updateAll Checksum ptype
                                (combine oldRules (skipn i newRules)) p)) []).
Proof.
  revert i p; induction oldRules as [|oldRule rest IH]; intros i p Hlen.
  - reflexivity.
  - cbn [updateLoop List.length] in *.
    destruct (nth_error newRules i) as [newRule|] eqn:Hnth.
    + unfold bind.
      rewrite (tx_Exec_run _ c p _ []
                 (exec_update (savePolicyLine Checksum ptype newRule)
                              (ID (savePolicyLine Checksum ptype oldRule)) p)).
      rewrite IH by lia. rewrite (skipn_nth_error _ _ _ Hnth). reflexivity.
    + apply nth_error_None in Hnth. lia.
Qed.

Lemma updateLoop_short (ptype : string) (oldRules newRules : list (list string))
      (i : nat) (c p : Table) :
  List.length newRules < i + List.length oldRules ->
  i <= List.length newRules ->
  exists p',
    updateLoop Checksum ptype i oldRules newRules (mkWorld c (Some p) [])
    = (Panic, mkWorld c (Some p') []).
Proof.
  revert i p; induction oldRules as [|oldRule rest IH]; intros i p Hlen Hi.
  - cbn [List.length] in Hlen. lia.
  - cbn [updateLoop List.length] in *.
    destruct (nth_error newRules i) as [newRule|] eqn:Hnth.
    + assert (Hlt : i < List.length newRules).
      { apply nth_error_Some. congruence. }
      unfold bind.
      rewrite (tx_Exec_run _ c p _ []
                 (exec_update (savePolicyLine Checksum ptype newRule)
                              (ID (savePolicyLine Checksum ptype oldRule)) p)).
      apply IH; lia.
    + now exists p.
Qed.

Lemma UpdatePolicies_pairs_in_order_aux
      (sec ptype : string) (oldRules newRules : list (list string)) (t : Table) :
  List.length oldRules <= List.length newRules ->
  UpdatePolicies Checksum sec ptype oldRules newRules (quiet t)
  = (Ok tt, quiet (updateAll Checksum ptype (combine oldRules newRules) t))
  /\ True.
Proof.
  intros Hlen. split; [|exact I].
  unfold UpdatePolicies. apply quiet_transaction with (a := tt).
  now rewrite updateLoop_quiet by (simpl; lia).
Qed.

(** With a store that does not fail and at least as many new rules as old
    ones, [UpdatePolicies] rewrites, pair by pair in order, the columns of
    the row found by the old rule's identifier; new rules beyond the last
    old rule are ignored, and the identifiers and the number of rows of
    the table are what they were. *)
Theorem UpdatePolicies_pairs_in_order
        (sec ptype : string) (oldRules newRules : list (list string))
        (t : Table)
        (Hlen : List.length oldRules <= List.length newRules) :
  let t' := updateAll Checksum ptype (combine oldRules newRules) t in
  UpdatePolicies Checksum sec ptype oldRules newRules (quiet t)
  = (Ok tt, quiet t')
  /\ map ID t' = map ID t
  /\ List.length t' = List.length t.
Proof.
  intros t'. split; [|split].
  - now apply UpdatePolicies_pairs_in_order_aux.
  - apply updateAll_ids.
  - rewrite <- (length_map ID t'), <- (length_map ID t).
    f_equal. apply updateAll_ids.
Qed.

(** With fewer new rules than old ones, [UpdatePolicies] panics on the
    first old rule without a partner, and the updates made before it are
    rolled back: the table is unchanged. *)
Theorem UpdatePolicies_short_newRules_panics
        (sec ptype : string) (oldRules newRules : list (list string))
        (t : Table)
        (Hlen : List.length newRules < List.length oldRules) :
  UpdatePolicies Checksum sec ptype oldRules newRules (quiet t)
  = (Panic, quiet t).
Proof.
  unfold UpdatePolicies, quiet. unfold bind at 1.
  change (db_Begin (mkWorld t None [])) with (Ok tt, mkWorld t (Some t) []).
  cbv beta iota. unfold deferRollback, bind.
  destruct (updateLoop_short ptype oldRules newRules 0 t t) as (p' & Hp);
    [simpl; lia | lia |].
  now rewrite Hp.
Qed.

(** Updating a rule that is not stored succeeds and changes nothing. *)
Theorem UpdatePolicy_of_absent_rule
        (sec ptype : string) (oldRule newRule : list string) (t : Table)
        (Habsent : has_id (policyID Checksum ptype oldRule) t = false) :
  UpdatePolicy Checksum sec ptype oldRule newRule (quiet t) = (Ok tt, quiet t).
Proof.
  unfold UpdatePolicy.
  destruct (UpdatePolicies_pairs_in_order_aux sec ptype [oldRule] [newRule] t)
    as (Hrun & _); [simpl; lia|].
  rewrite Hrun. unfold updateAll. cbn [combine fold_left fst snd].
  now rewrite updateID_absent.
Qed.

End UpdateFacts.

Lemma UpdatePolicies_pairs_witness :
  let old := [["alice"; "data1"; "read"]] in
  let new := [["alice"; "data1"; "write"]; ["bob"; "data2"; "write"]] in
  let t := [savePolicyLine sampleChecksum "p" ["alice"; "data1"; "read"]] in
  List.length old <= List.length new
  /\ UpdatePolicies sampleChecksum "p" "p" old new (quiet t)
     = (Ok tt, quiet [mkCasbinRule (policyID sampleChecksum "p" ["alice"; "data1"; "read"])
                                   "p" "alice" "data1" "write" "" "" ""]).
Proof.
  intros old new t.
  assert (Hlen : List.length old <= List.length new) by (simpl; lia).
  split; [exact Hlen|].
  exact (proj1 (UpdatePolicies_pairs_in_order sampleChecksum "p" "p" old new t Hlen)).
Defined.

Lemma UpdatePolicies_short_witness :
  let old := [["alice"; "data1"; "read"]; ["bob"; "data2"; "write"]] in
  let new := [["alice"; "data1"; "write"]] in
  let t := [savePolicyLine sampleChecksum "p" ["alice"; "data1"; "read"];
            savePolicyLine sampleChecksum "p" ["bob"; "data2"; "write"]] in
  List.length new < List.length old
  /\ UpdatePolicies sampleChecksum "p" "p" old new (quiet t) = (Panic, quiet t).
Proof.
  intros old new t.
  assert (Hlen : List.length new < List.length old) by (simpl; lia).
  split; [exact Hlen|].
  exact (UpdatePolicies_short_newRules_panics sampleChecksum "p" "p" old new t Hlen).
Defined.

Lemma UpdatePolicy_of_absent_rule_witness :
  let t := [savePolicyLine sampleChecksum "p" ["bob"; "data2"; "write"]] in
  has_id (policyID sampleChecksum "p" ["alice"; "data1"; "read"]) t = false
  /\ UpdatePolicy sampleChecksum "p" "p" ["alice"; "data1"; "read"]
                  ["alice"; "data1"; "write"] (quiet t)
     = (Ok tt, quiet t).
Proof.
  intros t.
  assert (Habs : has_id (policyID sampleChecksum "p" ["alice"; "data1"; "read"]) t
                 = false) by (vm_compute; reflexivity).
  split; [exact Habs|].
  exact (UpdatePolicy_of_absent_rule sampleChecksum "p" "p"
           ["alice"; "data1"; "read"] ["alice"; "data1"; "write"] t Habs).
Defined.

(** ** Filters: errors and edges *)

Lemma filterConds_keeps_acc (fieldIndex : Z) (fieldValues : list string)
      (i : nat) (acc : Where) :
  forallb (fun cond => column_exists (fst cond))
          (filterConds fieldIndex i fieldValues acc) = true ->
  forallb (fun cond => column_exists (fst cond)) acc = true.
Proof.
  revert i acc; induction fieldValues as [|v rest IH]; intros i acc H.
  - exact H.
  - cbn [filterConds] in H. apply IH in H.
    destruct (String.eqb v ""); [exact H|].
    rewrite forallb_app in H. now apply andb_true_iff in H as (H & _).
Qed.

(** A constrained position outside v0..v5 makes the loop name a column the
    table does not have. *)
Lemma filterConds_missing_column (fieldIndex : Z) (fieldValues : list string)
      (i : nat) (acc : Where) (j : nat) (v : string) :
  nth_error fieldValues j = Some v -> v <> "" ->
  ~ (0 <= fieldIndex + Z.of_nat (i + j) <= 5)%Z ->
  forallb (fun cond => column_exists (fst cond))
          (filterConds fieldIndex i fieldValues acc) = false.
Proof.
  revert i acc j; induction fieldValues as [|x rest IH]; intros i acc j Hj Hv Hout.
  - destruct j; discriminate.
  - cbn [filterConds]. destruct j as [|j].
    + injection Hj as ->. apply String.eqb_neq in Hv. rewrite Hv.
      rewrite Nat.add_0_r in Hout.
      destruct (forallb _ (filterConds _ _ rest _)) eqn:E; [|reflexivity].
      apply filterConds_keeps_acc in E. rewrite forallb_app in E.
      apply andb_true_iff in E as (_ & E). cbn [forallb fst] in E.
      rewrite andb_true_r in E. apply column_exists_iff in E. contradiction.
    + apply (IH (S i) _ j Hj Hv). now replace (S i + j) with (i + S j) by lia.
Qed.

(** When some non-empty value of [fieldValues] falls on a position outside
    v0..v5, the statement of [RemoveFilteredPolicy] is rejected: the call
    returns the error and no row is deleted, matching or not. *)
Theorem RemoveFilteredPolicy_outside_columns_fails
        (sec ptype : string) (fieldIndex : Z) (fieldValues : list string)
        (t : Table) (i : nat) (v : string)
        (Hi : nth_error fieldValues i = Some v) (Hv : v <> "")
        (Hout : ~ (0 <= fieldIndex + Z.of_nat i <= 5)%Z) :
  RemoveFilteredPolicy sec ptype fieldIndex fieldValues (quiet t)
  = (Err ErrStatement, quiet t).
Proof.
  unfold RemoveFilteredPolicy, db_Exec, quiet.
  cbn [next_fault faults committed exec_stmt].
  now rewrite (filterConds_missing_column fieldIndex fieldValues 0 _ i v Hi Hv Hout).
Qed.

Lemma RemoveFilteredPolicy_outside_witness :
  let alice := mkCasbinRule "1" "p" "alice" "data1" "read" "" "" "" in
  nth_error ["read"; "x"] 1 = Some "x" /\ "x" <> ""
  /\ ~ (0 <= 5 + Z.of_nat 1 <= 5)%Z
  /\ RemoveFilteredPolicy "p" "p" 5 ["read"; "x"] (quiet [alice])
     = (Err ErrStatement, quiet [alice]).
Proof.
  intros alice.
  assert (Hv : "x" <> "") by discriminate.
  assert (Hout : ~ (0 <= 5 + Z.of_nat 1 <= 5)%Z) by (simpl; lia).
  split; [reflexivity|]. split; [exact Hv|]. split; [exact Hout|].
  exact (RemoveFilteredPolicy_outside_columns_fails "p" "p" 5 ["read"; "x"]
           [alice] 1 "x" eq_refl Hv Hout).
Defined.

Lemma filterConds_all_empty (fieldIndex : Z) (fieldValues : list string)
      (i : nat) (acc : Where) :
  Forall (fun v => v = "") fieldValues ->
  filterConds fieldIndex i fieldValues acc = acc.
Proof.
  intros H. revert i. induction H as [|v rest Hv _ IH]; intros i; [reflexivity|].
  cbn [filterConds]. subst v. cbn. apply IH.
Qed.

(** With no value, or only empty values, [RemoveFilteredPolicy] deletes
    every row of the rule type and no other row, whatever [fieldIndex] is,
    even one outside the columns. *)
Theorem RemoveFilteredPolicy_without_values_deletes_the_type
        (sec ptype : string) (fieldIndex : Z) (fieldValues : list string)
        (t : Table) (Hempty : Forall (fun v => v = "") fieldValues) :
  RemoveFilteredPolicy sec ptype fieldIndex fieldValues (quiet t)
  = (Ok tt, quiet (filter (fun r => negb (String.eqb (Ptype r) ptype)) t)).
Proof.
  unfold RemoveFilteredPolicy. rewrite filterConds_all_empty by exact Hempty.
  apply db_Exec_quiet. cbn [exec_stmt forallb fst column_exists column andb].
  f_equal. apply filter_ext. intros r.
  cbn [matches forallb]. unfold holds. cbn [fst snd column].
  now rewrite andb_true_r.
Qed.

Lemma RemoveFilteredPolicy_without_values_witness :
  let alice := mkCasbinRule "1" "p" "alice" "data1" "read" "" "" "" in
  let role := mkCasbinRule "3" "g" "alice" "admin" "" "" "" "" in
  Forall (fun v => v = "") [""; ""]
  /\ RemoveFilteredPolicy "p" "p" 9 [""; ""] (quiet [alice; role])
     = (Ok tt, quiet [role]).
Proof.
  intros alice role.
  assert (Hempty : Forall (fun v => v = "") [""; ""]) by (repeat constructor).
  split; [exact Hempty|].
  exact (RemoveFilteredPolicy_without_values_deletes_the_type
           "p" "p" 9 [""; ""] [alice; role] Hempty).
Defined.

(** ** [UpdateFilteredPolicies]: what is left in the table *)

Lemma insertIgnore_keeps_rows (line r : CasbinRule) (t : Table) :
  In r t -> In r (insertIgnore line t).
Proof.
  unfold insertIgnore. destruct (has_id (ID line) t); [tauto|].
  intros H. apply in_app_iff. now left.
Qed.

Lemma replace_steps_keep_unmatched (q : Where) (newP : list CasbinRule)
      (r : CasbinRule) (t : Table) :
  In r t -> matches q r = false ->
  In r (fold_left (fun t nl => insertIgnore nl (deleteMatching q t)) newP t).
Proof.
  revert t; induction newP as [|nl newP IH]; intros t Hin Hm; [exact Hin|].
  cbn [fold_left]. apply IH; [|exact Hm].
  apply insertIgnore_keeps_rows. unfold deleteMatching.
  apply filter_In. split; [exact Hin|]. now rewrite Hm.
Qed.

Section FilteredUpdateResult.

Variable Checksum : Z -> list byte -> list byte.

(** With a store that does not fail: [UpdateFilteredPolicies] without new
    rules deletes nothing.  With new rules, every row the predicate
    selects is deleted again before each insert, so in the end the only
    row the predicate can select is the row of the last new rule (earlier
    new rules that the predicate selects are gone); the identifier of the
    last new rule is stored, and the rows the predicate does not select
    are all kept. *)
Theorem UpdateFilteredPolicies_last_new_rule_wins
        (sec ptype : string) (earlier : list (list string))
        (lastRule : list string) (fieldIndex : Z) (fieldValues : list string)
        (t : Table) :
  let q := queryString (filterLine ptype fieldIndex fieldValues) in
  let out := UpdateFilteredPolicies Checksum sec ptype (earlier ++ [lastRule])
                                    fieldIndex fieldValues (quiet t) in
  let t' := committed (snd out) in
  UpdateFilteredPolicies Checksum sec ptype [] fieldIndex fieldValues (quiet t)
  = (Ok [], quiet t)
  /\ fst out = Ok []
  /\ has_id (policyID Checksum ptype lastRule) t' = true
  /\ (forall r, In r t' -> matches q r = true ->
                r = savePolicyLine Checksum ptype lastRule)
  /\ (forall r, In r t -> matches q r = false -> In r t').
Proof.
  intros q out t'.
  split; [now rewrite UpdateFilteredPolicies_quiet|].
  subst t' out. rewrite UpdateFilteredPolicies_quiet. fold q.
  cbn [fst snd committed quiet]. split; [reflexivity|].
  rewrite map_app, fold_left_app. cbn [map fold_left].
  split; [|split].
  - rewrite <- (savePolicyLine_ID Checksum). apply insertIgnore_has_id.
  - intros r Hin Hm. apply insertIgnore_In in Hin as [Hin|Heq]; [|exact Heq].
    unfold deleteMatching in Hin. apply filter_In in Hin as (_ & Hn).
    rewrite Hm in Hn. discriminate.
  - intros r Hin Hm. apply insertIgnore_keeps_rows.
    unfold deleteMatching. apply filter_In. split; [|now rewrite Hm].
    now apply replace_steps_keep_unmatched.
Qed.

End FilteredUpdateResult.

(** Two new rules for alice: the first one is inserted, then deleted by
    the delete step of the second. *)
Example UpdateFilteredPolicies_drops_the_first_new_rule :
  UpdateFilteredPolicies sampleChecksum "p" "p"
    [["alice"; "data1"; "read"]; ["alice"; "data2"; "read"]] 0 ["alice"]
    (quiet [savePolicyLine sampleChecksum "p" ["alice"; "data0"; "read"]])
  = (Ok [], quiet [savePolicyLine sampleChecksum "p" ["alice"; "data2"; "read"]]).
Proof. vm_compute. reflexivity. Qed.

Lemma nth_all_empty (l : list string) (i : nat) :
  Forall (fun v => v = "") l -> nth i l "" = "".
Proof.
  intros H. revert i; induction H as [|v l Hv _ IH]; intros [|i]; try reflexivity.
  - exact Hv.
  - apply IH.
Qed.

Lemma windowValue_nowhere (fieldIndex : Z) (fieldValues : list string) (k : Z) :
  (6 <= fieldIndex)%Z
  \/ (fieldIndex + Z.of_nat (List.length fieldValues) <= 0)%Z
  \/ Forall (fun v => v = "") fieldValues ->
  (0 <= k <= 5)%Z -> windowValue fieldIndex fieldValues k = "".
Proof.
  intros H Hk. unfold windowValue.
  destruct (Z.leb_spec fieldIndex k) as [Hle|Hgt]; cbn [andb]; [|reflexivity].
  destruct (Z.ltb_spec k (fieldIndex + Z.of_nat (List.length fieldValues)))
    as [Hlt|Hge]; [|reflexivity].
  destruct H as [H|[H|H]]; [lia | lia | now apply nth_all_empty].
Qed.

Lemma fold_left_pointwise {A B} (f g : A -> B -> A) (l : list B) (a : A) :
  (forall a x, f a x = g a x) -> fold_left f l a = fold_left g l a.
Proof.
  intros H. revert a; induction l as [|x l IH]; intros a; [reflexivity|].
  cbn [fold_left]. now rewrite H, IH.
Qed.

Section FilteredUpdateWithoutWindow.

Variable Checksum : Z -> list byte -> list byte.

(** When the window gives no non-empty value to v0..v5 (it starts at
    column 6 or later, ends before v0, or holds only empty values), the
    values are dropped without an error and the predicate of
    [UpdateFilteredPolicies] is the rule type alone: for each new rule
    every row of the rule type is deleted before the insert. *)
Theorem UpdateFilteredPolicies_without_window_replaces_the_type
        (sec ptype : string) (newPolicies : list (list string))
        (fieldIndex : Z) (fieldValues : list string) (t : Table)
        (Hnowhere : (6 <= fieldIndex)%Z
                    \/ (fieldIndex + Z.of_nat (List.length fieldValues) <= 0)%Z
                    \/ Forall (fun v => v = "") fieldValues) :
  queryString (filterLine ptype fieldIndex fieldValues) = [(ColPtype, ptype)]
  /\ UpdateFilteredPolicies Checksum sec ptype newPolicies fieldIndex
                            fieldValues (quiet t)
     = (Ok [],
        quiet (fold_left
                 (fun t nl =>
                    insertIgnore nl
                      (filter (fun r => negb (String.eqb (Ptype r) ptype)) t))
                 (map (savePolicyLine Checksum ptype) newPolicies) t)).
Proof.
  assert (Hq : queryString (filterLine ptype fieldIndex fieldValues)
               = [(ColPtype, ptype)]).
  { destruct (filterLine_values ptype fieldIndex fieldValues) as (Hp & Hv).
    unfold queryString. rewrite Hp, Hv. cbn [map].
    rewrite !(windowValue_nowhere fieldIndex fieldValues _ Hnowhere) by lia.
    reflexivity. }
  split; [exact Hq|].
  rewrite UpdateFilteredPolicies_quiet, Hq. do 2 f_equal.
  apply fold_left_pointwise. intros p nl. f_equal.
  unfold deleteMatching. apply filter_ext. intros r.
  cbn [matches forallb]. unfold holds. cbn [fst snd column].
  now rewrite andb_true_r.
Qed.

End FilteredUpdateWithoutWindow.

Lemma UpdateFilteredPolicies_without_window_witness :
  let alice := savePolicyLine sampleChecksum "p" ["alice"; "data1"; "read"] in
  let bob := savePolicyLine sampleChecksum "p" ["bob"; "data2"; "write"] in
  let carol := savePolicyLine sampleChecksum "p" ["carol"; "data3"; "read"] in
  (6 <= 6)%Z
  /\ UpdateFilteredPolicies sampleChecksum "p" "p" [["carol"; "data3"; "read"]]
                            6 ["alice"] (quiet [alice; bob])
     = (Ok [], quiet [carol]).
Proof.
  intros alice bob carol.
  assert (H6 : (6 <= 6)%Z) by lia.
  split; [exact H6|].
  exact (proj2 (UpdateFilteredPolicies_without_window_replaces_the_type
                  sampleChecksum "p" "p" [["carol"; "data3"; "read"]]
                  6 ["alice"] [alice; bob] (or_introl H6))).
Defined.

(** ** Loads *)

Lemma feedRows_app (handler : Handler) (l1 l2 : list CasbinRule) (m : Model) :
  feedRows handler (l1 ++ l2) m
  = match feedRows handler l1 m with
    | (None, m1) => feedRows handler l2 m1
    | (Some err, m1) => (Some err, m1)
    end.
Proof.
  revert m; induction l1 as [|r l1 IH]; intros m; [reflexivity|].
  cbn [app feedRows]. destruct (handler (String_ r) m) as [[err|] m1].
  - reflexivity.
  - apply IH.
Qed.

(** [a.db.Query] never writes: it only takes the next entry of the
    schedule of failures. *)
Lemma db_Query_reads (q : Query) (w : World) :
  committed (snd (db_Query q w)) = committed w
  /\ pending (snd (db_Query q w)) = pending w.
Proof.
  destruct w as [c p fs]. unfold db_Query.
  destruct fs as [|[|] fs]; cbn [next_fault faults committed];
    try (split; reflexivity);
    (destruct (exec_query q c); split; reflexivity).
Qed.

Lemma loadRows_reads (handler : Handler) (q : Query) (s : LoadState) :
  committed (store (snd (loadRows handler q s))) = committed (store s)
  /\ pending (store (snd (loadRows handler q s))) = pending (store s)
  /\ adapter (snd (loadRows handler q s)) = adapter s.
Proof.
  unfold loadRows. destruct (db_Query_reads q (store s)) as (Hc & Hp).
  destruct (db_Query q (store s)) as [[rows|e|] w]; cbn [snd] in *.
  - destruct (feedRows handler rows (loading s)) as [[err|] m];
      cbn; repeat split; assumption.
  - cbn; repeat split; assumption.
  - cbn; repeat split; assumption.
Qed.

Section LoadFacts.

Variable LoadPolicyLine : Handler.

(** A load never writes to the table, whatever the filter, the handler
    and the failures of the store; and the filtered flag follows the
    loads: false after a successful full load (a nil filter included),
    true after a successful filtered load, unchanged by a load that
    fails or panics.  A filter of another type is refused before the
    store or the model is touched. *)
Theorem loads_read_only_and_set_the_flag (filter : FilterArg) (s : LoadState) :
  let out := LoadFilteredPolicy LoadPolicyLine filter s in
  committed (store (snd out)) = committed (store s)
  /\ pending (store (snd out)) = pending (store s)
  /\ match fst out with
     | Loaded =>
         IsFiltered (adapter (snd out))
         = match filter with FilterNil => false | _ => true end
     | _ => adapter (snd out) = adapter s
     end
  /\ (filter = FilterNil -> out = LoadPolicy LoadPolicyLine s)
  /\ (filter = FilterOther -> out = (Failed InvalidFilterType, s))
  /\ (filter = FilterPointer None -> out = (Panicked, s)).
Proof.
  intros out. subst out.
  destruct filter as [|[f|]|].
  - (* nil: the full load *)
    cbn [LoadFilteredPolicy]. unfold LoadPolicy.
    destruct (loadRows_reads LoadPolicyLine SelectAll s) as (Hc & Hp & Ha).
    destruct (loadRows LoadPolicyLine SelectAll s) as [[|e|] s1];
      cbn in *; repeat split; try assumption; try discriminate.
  - (* a filter *)
    cbn [LoadFilteredPolicy]. unfold loadFilteredPolicy.
    assert (HP : exists r1 s1,
               match P f with
               | Some values =>
                   loadRows LoadPolicyLine
                            (SelectWhere (buildQuery [(ColPtype, "p")] values)) s
               | None => (Loaded, s)
               end = (r1, s1)
               /\ committed (store s1) = committed (store s)
               /\ pending (store s1) = pending (store s)
               /\ adapter s1 = adapter s).
    { destruct (P f) as [values|].
      - pose proof (loadRows_reads LoadPolicyLine
                      (SelectWhere (buildQuery [(ColPtype, "p")] values)) s) as H.
        destruct (loadRows _ _ s) as [r1 s1]. now exists r1, s1.
      - now exists Loaded, s. }
    destruct HP as (r1 & s1 & -> & Hc1 & Hp1 & Ha1).
    destruct r1 as [|e|].
    + destruct (G f) as [values|].
      * pose proof (loadRows_reads LoadPolicyLine
                      (SelectWhere (buildQuery [(ColPtype, "g")] values)) s1)
          as (Hc2 & Hp2 & Ha2).
        destruct (loadRows _ _ s1) as [[|e|] s2]; cbn in *;
          repeat split; try congruence; try discriminate.
      * cbn. repeat split; try congruence; try discriminate.
    + cbn. repeat split; try congruence; try discriminate.
    + cbn. repeat split; try congruence; try discriminate.
  - cbn. repeat split; try reflexivity; try discriminate.
  - cbn. repeat split; try reflexivity; try discriminate.
Qed.

End LoadFacts.

(** One filtered query with a store that does not fail: the rows fed are
    the rows of the rule type that the positional predicate selects. *)
Lemma loadRows_filtered (handler : Handler) (ptype : string)
      (values : list string) (a : Adapter) (m : Model) (t : Table) :
  windowInRange 0 values ->
  loadRows handler (SelectWhere (buildQuery [(ColPtype, ptype)] values))
           (mkLoadState a m (quiet t))
  = match feedRows handler (filter (filterMatches ptype 0 values) t) m with
    | (None, m') => (Loaded, mkLoadState a m' (quiet t))
    | (Some err, m') => (Failed (HandlerError err), mkLoadState a m' (quiet t))
    end.
Proof.
  intros Hrange. unfold loadRows, db_Query, quiet, buildQuery.
  cbn [store next_fault faults committed exec_query loading adapter].
  rewrite filterConds_exist; [|exact Hrange|reflexivity].
  replace (filter (matches (filterConds 0 0 values [(ColPtype, ptype)])) t)
    with (filter (filterMatches ptype 0 values) t); [reflexivity|].
  apply filter_ext. intros r. rewrite filterConds_matches.
  unfold filterMatches. cbn [matches forallb]. unfold holds.
  cbn [fst snd column]. now rewrite andb_true_r.
Qed.

Section FilteredLoad.

Variable LoadPolicyLine : Handler.

(** With a store that does not fail and filter values within v0..v5, a
    filtered load feeds the handler, in storage order, the lines of the
    rows of type "p" selected by [P] (none when [P] is nil), then those of
    the rows of type "g" selected by [G]; rows of any other rule type are
    never fed.  It stops at the first line the handler refuses; otherwise
    it sets the filtered flag. *)
Theorem LoadFilteredPolicy_feeds_the_selected_rows
        (f : Filter) (a : Adapter) (m : Model) (t : Table)
        (HP : sectionInRange (P f)) (HG : sectionInRange (G f)) :
  let rows := (selectedRows "p" (P f) t ++ selectedRows "g" (G f) t)%list in
  LoadFilteredPolicy LoadPolicyLine (FilterPointer (Some f))
                     (mkLoadState a m (quiet t))
  = match feedRows LoadPolicyLine rows m with
    | (None, m') => (Loaded, mkLoadState (set_filtered a true) m' (quiet t))
    | (Some err, m') => (Failed (HandlerError err), mkLoadState a m' (quiet t))
    end
  /\ (forall r, In r rows ->
        In r t /\ (Ptype r = "p" \/ Ptype r = "g")).
Proof.
  intros rows. split.
  - subst rows. cbn [LoadFilteredPolicy]. unfold loadFilteredPolicy.
    rewrite feedRows_app.
    destruct (P f) as [pv|], (G f) as [gv|];
      cbn [selectedRows sectionInRange feedRows] in *.
    + rewrite loadRows_filtered by exact HP.
      destruct (feedRows _ (filter (filterMatches "p" 0 pv) t) m) as [[err|] m1];
        [reflexivity|].
      rewrite loadRows_filtered by exact HG.
      now destruct (feedRows _ (filter (filterMatches "g" 0 gv) t) m1) as [[err|] m2].
    + rewrite loadRows_filtered by exact HP.
      now destruct (feedRows _ (filter (filterMatches "p" 0 pv) t) m) as [[err|] m1].
    + rewrite loadRows_filtered by exact HG.
      now destruct (feedRows _ (filter (filterMatches "g" 0 gv) t) m) as [[err|] m1].
    + reflexivity.
  - intros r Hin. subst rows. apply in_app_iff in Hin.
    destruct Hin as [Hin|Hin]; [destruct (P f) | destruct (G f)];
      cbn [selectedRows] in Hin; try contradiction;
      apply filter_In in Hin as (Hin & Hm);
      unfold filterMatches in Hm; apply andb_true_iff in Hm as (Hm & _);
      apply String.eqb_eq in Hm; tauto.
Qed.

(** A non-empty value at position six or later of [P] makes the query
    name a column the table does not have: the load returns the error of
    the store, feeds nothing and leaves the flag as it was. *)
Theorem LoadFilteredPolicy_seventh_value_fails
        (pv : list string) (g : option (list string))
        (a : Adapter) (m : Model) (t : Table) (i : nat) (v : string)
        (Hi : nth_error pv i = Some v) (Hv : v <> "") (Hout : 6 <= i) :
  LoadFilteredPolicy LoadPolicyLine (FilterPointer (Some (mkFilter (Some pv) g)))
                     (mkLoadState a m (quiet t))
  = (Failed (StoreError ErrStatement), mkLoadState a m (quiet t)).
Proof.
  cbn [LoadFilteredPolicy]. unfold loadFilteredPolicy. cbn [P].
  unfold loadRows, db_Query, quiet, buildQuery.
  cbn [store next_fault faults committed exec_query loading adapter].
  rewrite (filterConds_missing_column 0 pv 0 _ i v Hi Hv); [reflexivity|].
  cbn [Nat.add]. lia.
Qed.

(** The full load stops at the first line the handler refuses: the rows
    before it have been fed, the rows after it are not, the error is the
    handler's and the filtered flag is not touched. *)
Theorem LoadPolicy_stops_at_the_refused_line
        (a : Adapter) (m m1 m2 : Model) (err : string)
        (before after : list CasbinRule) (bad : CasbinRule)
        (Hbefore : feedRows LoadPolicyLine before m = (None, m1))
        (Hbad : LoadPolicyLine (String_ bad) m1 = (Some err, m2)) :
  LoadPolicy LoadPolicyLine
             (mkLoadState a m (quiet (before ++ bad :: after)%list))
  = (Failed (HandlerError err),
     mkLoadState a m2 (quiet (before ++ bad :: after)%list)).
Proof.
  unfold LoadPolicy, loadRows, db_Query, quiet.
  cbn [store next_fault faults committed exec_query loading adapter].
  rewrite feedRows_app, Hbefore. cbn [feedRows]. now rewrite Hbad.
Qed.


End FilteredLoad.

(** The filtered load of the specification's example: of the rows
    (p, alice, data1, read), (p, bob, data2, write), (g, alice, admin), the
    filter P = ["", "data1"], G = ["alice"] loads the first and the third. *)
Lemma LoadFilteredPolicy_witness :
  let alice := mkCasbinRule "1" "p" "alice" "data1" "read" "" "" "" in
  let bob := mkCasbinRule "2" "p" "bob" "data2" "write" "" "" "" in
  let role := mkCasbinRule "3" "g" "alice" "admin" "" "" "" "" in
  let f := mkFilter (Some [""; "data1"]) (Some ["alice"]) in
  let a := mkAdapter "casbin_rule" false false in
  let out := LoadFilteredPolicy recordLine (FilterPointer (Some f))
                                (mkLoadState a [] (quiet [alice; bob; role])) in
  sectionInRange (P f) /\ sectionInRange (G f)
  /\ fst out = Loaded
  /\ recordedLines (loading (snd out)) = ["p, alice, data1, read"; "g, alice, admin"]
  /\ IsFiltered (adapter (snd out)) = true.
Proof.
  intros alice bob role f a out.
  assert (HP : sectionInRange (P f)).
  { intros [|[|i]] v Hi Hv; simpl in Hi; try discriminate; try lia.
    destruct i; discriminate. }
  assert (HG : sectionInRange (G f)).
  { intros [|i] v Hi Hv; simpl in Hi; try discriminate; try lia.
    destruct i; discriminate. }
  split; [exact HP|]. split; [exact HG|].
  pose proof (proj1 (LoadFilteredPolicy_feeds_the_selected_rows
                       recordLine f a [] [alice; bob; role] HP HG)) as Hrun.
  fold out in Hrun. rewrite Hrun. repeat split; reflexivity.
Defined.

Lemma LoadFilteredPolicy_seventh_value_witness :
  let alice := mkCasbinRule "1" "p" "alice" "data1" "read" "" "" "" in
  let a := mkAdapter "casbin_rule" false false in
  let pv := ["alice"; ""; ""; ""; ""; ""; "x"] in
  nth_error pv 6 = Some "x" /\ "x" <> "" /\ 6 <= 6
  /\ LoadFilteredPolicy recordLine (FilterPointer (Some (mkFilter (Some pv) None)))
                        (mkLoadState a [] (quiet [alice]))
     = (Failed (StoreError ErrStatement), mkLoadState a [] (quiet [alice])).
Proof.
  intros alice a pv.
  assert (Hv : "x" <> "") by discriminate.
  assert (H6 : 6 <= 6) by lia.
  split; [reflexivity|]. split; [exact Hv|]. split; [exact H6|].
  exact (LoadFilteredPolicy_seventh_value_fails recordLine pv None a []
           [alice] 6 "x" eq_refl Hv H6).
Defined.

Lemma LoadPolicy_stops_witness :
  let alice := mkCasbinRule "1" "p" "alice" "data1" "read" "" "" "" in
  let bob := mkCasbinRule "2" "p" "bob" "data2" "write" "" "" "" in
  let role := mkCasbinRule "3" "g" "alice" "admin" "" "" "" "" in
  let a := mkAdapter "casbin_rule" false true in
  let h := refuseLine "p, bob, data2, write" in
  let out := LoadPolicy h (mkLoadState a [] (quiet [alice; bob; role])) in
  fst out = Failed (HandlerError "refused")
  /\ recordedLines (loading (snd out)) = ["p, alice, data1, read"]
  /\ IsFiltered (adapter (snd out)) = true.
Proof.
  intros alice bob role a h out.
  pose proof (LoadPolicy_stops_at_the_refused_line h a []
                (snd (h (String_ alice) [])) (snd (h (String_ alice) []))
                "refused" [alice] [role] bob eq_refl eq_refl) as Hrun.
  change ([alice] ++ bob :: [role])%list with [alice; bob; role] in Hrun.
  fold out in Hrun. rewrite Hrun. repeat split; reflexivity.
Defined.

Lemma RemoveFilteredPolicy_quiet
      (sec ptype : string) (fieldIndex : Z) (fieldValues : list string)
      (t : Table) :
  windowInRange fieldIndex fieldValues ->
  RemoveFilteredPolicy sec ptype fieldIndex fieldValues (quiet t)
  = (Ok tt,
     quiet (filter (fun r => negb (filterMatches ptype fieldIndex fieldValues r)) t)).
Proof.
  intros Hrange. unfold RemoveFilteredPolicy. apply db_Exec_quiet.
  cbn [exec_stmt]. rewrite filterConds_exist; [|exact Hrange|reflexivity].
  f_equal. apply filter_ext. intros r. f_equal.
  rewrite filterConds_matches. unfold filterMatches.
  cbn [matches forallb]. unfold holds. cbn [fst snd column].
  now rewrite andb_true_r.
Qed.

Lemma filter_after_its_negation {A} (f : A -> bool) (l : list A) :
  filter f (filter (fun x => negb (f x)) l) = [].
Proof.
  induction l as [|x l IH]; [reflexivity|].
  cbn [filter]. destruct (f x) eqn:E; cbn [negb filter]; [exact IH|].
  now rewrite E.
Qed.

Section LoadAfterWrite.

Variable Checksum : Z -> list byte -> list byte.
Variable LoadPolicyLine : Handler.

(** The filter of a load and the filter of a remove agree: after
    [RemoveFilteredPolicy] of type "p" from offset 0 with some values, a
    filtered load with the same values as [P] finds no row to feed. *)
Theorem LoadFilteredPolicy_after_RemoveFilteredPolicy
        (sec : string) (values : list string)
        (a : Adapter) (m : Model) (t : Table)
        (Hrange : windowInRange 0 values) :
  exists t',
    RemoveFilteredPolicy sec "p" 0 values (quiet t) = (Ok tt, quiet t')
    /\ LoadFilteredPolicy LoadPolicyLine
                          (FilterPointer (Some (mkFilter (Some values) None)))
                          (mkLoadState a m (quiet t'))
       = (Loaded, mkLoadState (set_filtered a true) m (quiet t')).
Proof.
  eexists. split; [now apply RemoveFilteredPolicy_quiet|].
  cbn [LoadFilteredPolicy]. unfold loadFilteredPolicy. cbn [P G].
  rewrite loadRows_filtered by exact Hrange.
  now rewrite filter_after_its_negation.
Qed.


End LoadAfterWrite.

Lemma LoadFilteredPolicy_after_RemoveFilteredPolicy_witness :
  let alice := mkCasbinRule "1" "p" "alice" "data1" "read" "" "" "" in
  let bob := mkCasbinRule "2" "p" "bob" "data2" "write" "" "" "" in
  let a := mkAdapter "casbin_rule" false false in
  windowInRange 0 ["alice"]
  /\ exists t',
       RemoveFilteredPolicy "p" "p" 0 ["alice"] (quiet [alice; bob])
       = (Ok tt, quiet t')
       /\ LoadFilteredPolicy recordLine
            (FilterPointer (Some (mkFilter (Some ["alice"]) None)))
            (mkLoadState a [] (quiet t'))
          = (Loaded, mkLoadState (set_filtered a true) [] (quiet t')).
Proof.
  intros alice bob a.
  assert (Hrange : windowInRange 0 ["alice"]).
  { intros [|i] v Hi Hv; simpl in Hi; [lia|]. destruct i; discriminate. }
  split; [exact Hrange|].
  exact (LoadFilteredPolicy_after_RemoveFilteredPolicy recordLine "p" ["alice"]
           a [] [alice; bob] Hrange).
Defined.


(** ** [SavePolicy]: what is saved *)

Lemma model_get_other_section (m : Model) (sec other : string) (am : AssertionMap) :
  other <> sec -> model_get ((other, am) :: m) sec = model_get m sec.
Proof.
  intros Hne. cbn [model_get]. apply String.eqb_neq in Hne. now rewrite Hne.
Qed.

Section SaveContents.

Variable Checksum : Z -> list byte -> list byte.

(** With a store that does not fail, the table after [SavePolicy] is
    built from the model alone: nothing of the previous table is left.
    Only the sections "p" and "g" of the model are read: a section of
    another name changes nothing, whatever the store does; and a model
    with neither section empties the table. *)
Theorem SavePolicy_saves_p_and_g_only (model : Model) (t : Table) :
  let lines := (gatherLines Checksum (model_get model "p")
                ++ gatherLines Checksum (model_get model "g"))%list in
  SavePolicy Checksum model (quiet t)
  = (Ok tt, quiet (fold_left (fun t l => insertIgnore l t) lines []))
  /\ (forall sec am w, sec <> "p" -> sec <> "g" ->
        SavePolicy Checksum ((sec, am) :: model) w = SavePolicy Checksum model w)
  /\ (model_get model "p" = [] -> model_get model "g" = [] ->
      SavePolicy Checksum model (quiet t) = (Ok tt, quiet [])).
Proof.
  intros lines.
  assert (Hrun : SavePolicy Checksum model (quiet t)
                 = (Ok tt, quiet (fold_left (fun t l => insertIgnore l t) lines []))).
  { unfold SavePolicy, quiet. fold lines. unfold bind at 1.
    change (wrapErr "start DB transaction" db_Begin (mkWorld t None []))
      with (Ok tt, mkWorld t (Some t) []).
    cbv beta iota. unfold deferRollback. unfold bind at 1.
    rewrite (tx_Exec_run DeleteAll t t [] [] eq_refl). unfold bind at 1.
    destruct (insert_loop lines t [] []) as (_ & Hok & _).
    cbv zeta in Hok. rewrite Hok by apply noFault_nil.
    rewrite skipn_nil. reflexivity. }
  split; [exact Hrun|]. split.
  - intros sec am w Hp Hg. unfold SavePolicy.
    now rewrite !model_get_other_section by assumption.
  - intros Hp Hg. rewrite Hrun. unfold lines. now rewrite Hp, Hg.
Qed.

End SaveContents.

(** ** Rows stay identified under inserts *)

Lemma AddPolicy_identified_witness :
  let t := [savePolicyLine sampleChecksum "p" ["bob"; "data2"; "write"]] in
  let rule := ["alice"; ""; "read"] in
  List.length rule <= 6 /\ trimTrailingEmpty rule = rule
  /\ Forall (rowIdentified sampleChecksum) t
  /\ exists t', AddPolicy sampleChecksum "p" "p" rule (quiet t) = (Ok tt, quiet t')
                /\ Forall (rowIdentified sampleChecksum) t'.
Proof.
  intros t rule.
  assert (Hlen : List.length rule <= 6) by (simpl; lia).
  assert (Htrim : trimTrailingEmpty rule = rule) by reflexivity.
  assert (Ht : Forall (rowIdentified sampleChecksum) t).
  { constructor; [|constructor].
    apply savePolicyLine_identified; [simpl; lia | reflexivity]. }
  split; [exact Hlen|]. split; [exact Htrim|]. split; [exact Ht|].
  exact (AddPolicy_identified sampleChecksum "p" "p" rule t Hlen Htrim Ht).
Defined.

Lemma UpdateFilteredPolicies_identified_witness :
  let t := [savePolicyLine sampleChecksum "p" ["alice"; "data1"; "read"]] in
  let new := [["alice"; "data1"; "write"]] in
  Forall (fun rule => List.length rule <= 6 /\ trimTrailingEmpty rule = rule) new
  /\ Forall (rowIdentified sampleChecksum) t
  /\ exists t',
       UpdateFilteredPolicies sampleChecksum "p" "p" new 0 ["alice"] (quiet t)
       = (Ok [], quiet t')
       /\ Forall (rowIdentified sampleChecksum) t'.
Proof.
  intros t new.
  assert (Hnew : Forall (fun rule => List.length rule <= 6
                                     /\ trimTrailingEmpty rule = rule) new).
  { constructor; [|constructor]. split; [simpl; lia | reflexivity]. }
  assert (Ht : Forall (rowIdentified sampleChecksum) t).
  { constructor; [|constructor].
    apply savePolicyLine_identified; [simpl; lia | reflexivity]. }
  split; [exact Hnew|]. split; [exact Ht|].
  exact (UpdateFilteredPolicies_identified sampleChecksum "p" "p" new 0 ["alice"]
           t Hnew Ht).
Defined.
